(** * Cards2: the card store, the gesture handlers and the frame loop of
      [src/App.tsx], embedded as Rocq functions.

    Conventions of the embedding.
    - A JavaScript [number] that holds a time, a coordinate or an angle is a
      rational ([Q]) and its arithmetic is exact; where a statement turns
      on rounding (the phases of the layout) the same expression is also
      computed on binary64 floats, in the module [Double].
    - A card index is a [nat]; [number | undefined] is [option nat].
    - An exception is a constructor of the result type ([Err], or the
      [thrown] field of a frame result), never a missing case.
    - Refs ([clock.current], [mouse.current], [drag.current]), React state
      ([hover]) and the zustand store are fields of one [Scene] record that
      every handler takes and returns. *)

From Stdlib Require Import QArith ZArith List String Ascii Bool Arith Lia Lqa.
From Stdlib Require Import DecimalString Qabs Qround.
From Stdlib Require Floats.
Import PrimFloat.
Set Warnings "-inexact-float".
Import ListNotations.
Open Scope Q_scope.

(** ** JavaScript values used by the program *)

Inductive exn : Set := TypeError.

(** The result of a call that either returns or throws. *)
Inductive js (A : Type) : Type :=
| Ok (a : A)
| Err (e : exn).
Arguments Ok {A} a.
Arguments Err {A} e.

Definition bind {A B : Type} (m : js A) (k : A -> js B) : js B :=
  match m with
  | Ok a => k a
  | Err e => Err e
  end.

Notation "x <- m ;; k" := (bind m (fun x => k))
  (at level 61, m at next level, right associativity).

(** Comparisons on numbers, as booleans. *)
Definition Qgtb (a b : Q) : bool := negb (Qle_bool a b).
Definition Qgeb (a b : Q) : bool := Qle_bool b a.

(** [a === b] for a number and a [number | undefined]. *)
Definition strict_eq (a : nat) (b : option nat) : bool :=
  match b with
  | Some n => Nat.eqb a n
  | None => false
  end.

(** Truthiness of a [number | undefined] that holds an index: [undefined]
    and [0] are falsy. *)
Definition truthy_index (b : option nat) : bool :=
  match b with
  | Some (S _) => true
  | _ => false
  end.

(** ** Types and the store *)

Module Card.
Record t : Set := mk { flip : bool; lift : option Q }.
End Card.
Abbreviation CardType := Card.t.

Record Store : Set := mkStore {
  cards : list CardType;
  focus : nat
}.

(** A callback handed to [setTimeout]: the deferred half of [bump]. *)
Inductive Timer : Set := LiftReset (i : nat) (delay_ms : nat).

(** [cards[i].field = v]: a [TypeError] when [cards[i]] is [undefined]. *)
Fixpoint assign (f : CardType -> CardType) (i : nat) (l : list CardType)
    {struct l} : js (list CardType) :=
  match l, i with
  | [], _ => Err TypeError
  | c :: l', O => Ok (f c :: l')
  | c :: l', S i' => l'' <- assign f i' l' ;; Ok (c :: l'')
  end.

Definition set_lift (v : Q) (c : CardType) : CardType :=
  Card.mk (Card.flip c) (Some v).

Definition toggle_flip (c : CardType) : CardType :=
  Card.mk (negb (Card.flip c)) (Card.lift c).

Definition setFocus (i : nat) (s : Store) : Store :=
  mkStore (cards s) i.

(** [Array.apply(null, { length: i }).map(() => ({ flip: false }))] *)
Definition setCards (i : nat) (s : Store) : Store :=
  let s' := setFocus 0 s in
  mkStore (repeat (Card.mk false None) i) (focus s').

(** The immediate half of [bump]: lift the card, then schedule the reset. *)
Definition bump (i : nat) (s : Store) : js (Store * list Timer) :=
  cs <- assign (set_lift 4.5) i (cards s) ;;
  Ok (mkStore cs (focus s), [LiftReset i 100]).

(** The deferred half of [bump], run when the timer fires on the store as it
    is then. *)
Definition runTimer (t : Timer) (s : Store) : js Store :=
  match t with
  | LiftReset i _ =>
      cs <- assign (set_lift 0) i (cards s) ;;
      Ok (mkStore cs (focus s))
  end.

Definition flip (i : nat) (s : Store) : js (Store * list Timer) :=
  r <- bump i s ;;
  cs <- assign toggle_flip i (cards (fst r)) ;;
  Ok (mkStore cs (focus (fst r)), snd r).

(** ** Configuration and utils *)

Definition defaultCardCount : nat := 4.

Record SpringConfig : Set := mkConf {
  mass : Q; tension : Q; friction : Q; damping : option Q
}.

Definition cardSpringConf : SpringConfig := mkConf 10 300 85 None.
Definition cardMovementSpringConf : SpringConfig := mkConf 10 1000 150 (Some 500).

(** *** Numbers printed in decimal

    [Math.sin] returns a finite double.  What the program does with it is
    arithmetic and [toString]; both are determined by the shortest decimal
    expansion of the double, which is how ECMAScript's [Number::toString]
    describes it: digits [d1 ... dk] with [d1 <> 0] and an exponent [n] such
    that the value is [0.d1...dk * 10^n].  [digits = []] is zero. *)

Record decimal : Set := mkDec {
  neg : bool;
  digits : list nat;
  pt : Z
}.

Definition digit_ok (d : nat) : bool := Nat.ltb d 10.

(** Well-formed: decimal digits, no leading and no trailing zero. *)
Definition wf_decimal (x : decimal) : bool :=
  forallb digit_ok (digits x)
  && negb (Nat.eqb (hd 1%nat (digits x)) 0)
  && negb (Nat.eqb (last (digits x) 1%nat) 0).

Fixpoint frac (ds : list nat) : Q :=
  match ds with
  | [] => 0
  | d :: t => (inject_Z (Z.of_nat d) + frac t) / 10
  end.

Definition pow10 (z : Z) : Q :=
  match z with
  | Z0 => 1
  | Zpos p => inject_Z (10 ^ Zpos p)
  | Zneg p => / inject_Z (10 ^ Zpos p)
  end.

Definition valueOf (x : decimal) : Q :=
  (if neg x then - frac (digits x) else frac (digits x)) * pow10 (pt x).

Definition digit_char (d : nat) : ascii := ascii_of_nat (48 + d).

Fixpoint digit_string (ds : list nat) : string :=
  match ds with
  | [] => EmptyString
  | d :: t => String (digit_char d) (digit_string t)
  end.

Fixpoint zeros (n : nat) : string :=
  match n with
  | O => EmptyString
  | S n' => String "0" (zeros n')
  end.

Definition nat_string (n : nat) : string :=
  NilEmpty.string_of_uint (Nat.to_uint n).

(** [Number::toString(x)] for a positive [x] with digits [ds] and exponent
    [n], steps 6 to 10 of the ECMAScript algorithm (radix 10). *)
Definition toString_pos (ds : list nat) (n : Z) : string :=
  let k := Z.of_nat (List.length ds) in
  (if (k <=? n)%Z && (n <=? 21)%Z then
     digit_string ds ++ zeros (Z.to_nat (n - k))
   else if (0 <? n)%Z && (n <=? 21)%Z then
     digit_string (firstn (Z.to_nat n) ds) ++ "." ++
     digit_string (skipn (Z.to_nat n) ds)
   else if (-6 <? n)%Z && (n <=? 0)%Z then
     "0." ++ zeros (Z.to_nat (- n)) ++ digit_string ds
   else
     let e := (n - 1)%Z in
     let sign := if (e <? 0)%Z then "-" else "+" in
     match ds with
     | nil => EmptyString
     | d :: nil =>
         digit_string (d :: nil) ++ "e" ++ sign ++ nat_string (Z.abs_nat e)
     | d :: t =>
         digit_string (d :: nil) ++ "." ++ digit_string t ++ "e" ++ sign ++
         nat_string (Z.abs_nat e)
     end)%string.

Definition toString (x : decimal) : string :=
  match digits x with
  | [] => "0"
  | ds => (if neg x then "-" else EmptyString) ++ toString_pos ds (pt x)
  end%string.

(** [s.split(sep)] for a one-character separator. *)
Fixpoint split (sep : ascii) (s : string) : list string :=
  match s with
  | EmptyString => [EmptyString]
  | String c s' =>
      if Ascii.eqb c sep then EmptyString :: split sep s'
      else match split sep s' with
           | h :: t => String c h :: t
           | [] => [String c EmptyString]
           end
  end.

(** The result of [Number(...)] on one character or on [undefined]. *)
Inductive numval : Set := Num (n : nat) | NaN.

Definition is_digit (c : ascii) : bool :=
  let n := nat_of_ascii c in Nat.leb 48 n && Nat.leb n 57.

(** [Number(str[ntn])]: [str[ntn]] is [undefined] past the end of [str], and
    [Number(undefined)] is [NaN]; of the characters [toString] prints, the
    digits convert to themselves and ["e"], ["+"], ["-"] to [NaN]. *)
Definition Number_of_char (c : option ascii) : numval :=
  match c with
  | Some c => if is_digit c then Num (nat_of_ascii c - 48) else NaN
  | None => NaN
  end.

(** Get the nth decimal from a float:
    [Number(number.toString().split(".")[1][ntn])].  Indexing [undefined]
    (no ["."] in the string) throws. *)
Definition nthDigit (ntn : nat) (number : decimal) : js numval :=
  match nth_error (split "." (toString number)) 1 with
  | None => Err TypeError
  | Some str => Ok (Number_of_char (String.get ntn str))
  end.

(** [x === n] for the result of [Number(...)] and a literal. *)
Definition is_num (n : nat) (v : numval) : bool :=
  match v with
  | Num m => Nat.eqb m n
  | NaN => false
  end.

(** *** Vectors, rotations and spring targets *)

Definition vec3 : Set := (Q * Q * Q)%type.

(** A rotation is [[x, y, z]] or [[x, y, z, order]]. *)
Record Euler : Set := mkEuler {
  rot : vec3;
  order : option string
}.

(** The bounding box [new THREE.Box3().setFromObject(o)] computes for an
    object; only its x and y extents are read. *)
Record Object3D : Set := mkObject {
  bbox_min : vec3;
  bbox_max : vec3
}.

Record MouseRef : Set := mkMouse {
  position : Q * Q;
  hoverPosition : Q * Q;
  object : option Object3D
}.

Module DragRef.
Record t : Set := mk {
  x : Q;
  y : Q;
  vX : Q;
  vY : Q;
  dX : Q;
  dY : Q;
  i : option nat;
  dragging : bool;
  dragged : bool
}.
End DragRef.
Abbreviation DragRef := DragRef.t.

(** What a callback of [springApi.start] returns for one spring. *)
Record SpringProps : Set := mkProps {
  sp_position : option vec3;
  sp_rotation : option Euler;
  sp_scale : option vec3;
  sp_config : option SpringConfig
}.

(** [Math.PI], the double 884279719003555 / 2^48. *)
Definition Math_PI : Q := 884279719003555 # 281474976710656.

Definition degToRad (d : Q) : Q := d * (Math_PI / 180).

Definition Math_min (a b : Q) : Q := if Qle_bool a b then a else b.
Definition Math_max (a b : Q) : Q := if Qle_bool a b then b else a.

(** [THREE.MathUtils.clamp] *)
Definition clamp (value lo hi : Q) : Q := Math_max lo (Math_min hi value).

Definition vx (v : vec3) : Q := fst (fst v).
Definition vy (v : vec3) : Q := snd (fst v).
Definition vz (v : vec3) : Q := snd v.

(** Augment rotation based on mouse position.  The divisions are by the
    extent of a rendered card, which is not zero. *)
Definition hoverTilt (baseRotation : vec3) (mouse : MouseRef) : Euler :=
  match object mouse with
  | None => mkEuler baseRotation None
  | Some o =>
      let hx := fst (hoverPosition mouse) in
      let hy := snd (hoverPosition mouse) in
      let mX := if Qgeb hx 0 then hx / vx (bbox_max o)
                else - hx / vx (bbox_min o) in
      let mY := if Qgeb hy 0 then hy / vy (bbox_max o)
                else - hy / vy (bbox_min o) in
      mkEuler (vx baseRotation + mY * degToRad 5,
               vy baseRotation + - mX * degToRad 10,
               vz baseRotation)
              (Some "ZXY"%string)
  end.

(** Augment rotation based on drag velocity. *)
Definition dragTilt (baseRotation : vec3) (drag : DragRef)
    (factor rangeFactor : Q) : vec3 :=
  (clamp (vx baseRotation + DragRef.vY drag * DragRef.dY drag * factor)
         (-0.25 * rangeFactor) (0.25 * rangeFactor),
   clamp (vy baseRotation + DragRef.vX drag * DragRef.dX drag * factor)
         (-0.25 * rangeFactor) (0.25 * rangeFactor),
   vz baseRotation).

(** Simple layout parameters for the focused card. *)
Definition focusCardLayout_position : vec3 := (0, 1, 0.2).
Definition focusCardLayout_scale : vec3 := (0.75, 0.75, 0.75).
Definition focusCardLayout_rotation : vec3 := (0, 0, 0).

Definition focusCardLayout : SpringProps :=
  mkProps (Some focusCardLayout_position)
          (Some (mkEuler focusCardLayout_rotation None))
          (Some focusCardLayout_scale)
          None.

(** An entry of the [hover] array: [Array(n)] is [n] holes, spreading turns
    a hole into [undefined], [map] skips holes. *)
Inductive slot : Set := Hole | Undefined | Flag (b : bool).

(** [hover[i]] in a condition. *)
Definition hovered (hover : list slot) (i : nat) : bool :=
  match nth_error hover i with
  | Some (Flag true) => true
  | _ => false
  end.

(** The locals [num], [j] and [phase] of [cardsLayout]; [len] is
    [cards.length]. *)
Definition layout_num (len : nat) : Z := (Z.of_nat len - 1)%Z.

Definition layout_j (i focus : nat) : Z :=
  if Nat.ltb focus i then (Z.of_nat i - 1)%Z else Z.of_nat i.

Definition phase (i focus len : nat) : Q :=
  let num := layout_num len in
  if (num =? 1)%Z then 0
  else inject_Z (layout_j i focus) / inject_Z (num - 1) - 0.5.

(** Math to layout the other cards. *)
Definition cardsLayout (i focus : nat) (cards : list CardType)
    (hover : list slot) (mouse : MouseRef) : SpringProps :=
  let num := inject_Z (layout_num (List.length cards)) in
  let height := num * 0.05 in
  let width := num * 0.6 in
  let tilt := num * 0.005 in
  let phase := phase i focus (List.length cards) in
  mkProps
    (Some (phase * width,
           -2.25 - Qabs (phase * height) + (if hovered hover i then 0.1 else 0),
           phase * 0.01 + (if hovered hover i then 0.2 else 0)))
    (Some (if hovered hover i
           then hoverTilt (0, 0, - phase * Math_PI * tilt) mouse
           else mkEuler (0, 0, - phase * Math_PI * tilt) None))
    (Some (0.4, 0.4, 0.4))
    (Some cardMovementSpringConf).

(** ** The layout in binary64

    The numbers of the program are IEEE 754 doubles, and [phase] above is
    the exact value of the formula.  Here the locals [num], [j], [phase]
    and [width] of [cardsLayout] and the first coordinate of the position
    it returns are computed on doubles, with the operations of the code in
    the order of the code. *)
Module Double.

Definition of_nat (n : nat) : float := of_uint63 (Uint63.of_Z (Z.of_nat n)).

Definition num (len : nat) : float := (of_nat len - 1)%float.

Definition j (i focus : nat) : float :=
  if Nat.ltb focus i then (of_nat i - 1)%float else of_nat i.

Definition phase (i focus len : nat) : float :=
  if (num len =? 1)%float then 0%float
  else (j i focus / (num len - 1) - 0.5)%float.

Definition width (len : nat) : float := (num len * 0.6)%float.

Definition position_x (i focus len : nat) : float :=
  (phase i focus len * width len)%float.

(** The rational a finite double stands for. *)
Definition toQ (x : float) : Q :=
  match FloatOps.Prim2SF x with
  | SpecFloat.S754_finite s m e =>
      let v := inject_Z (Z.pos m) *
               (if (0 <=? e)%Z then inject_Z (2 ^ e)
                else / inject_Z (2 ^ (- e))) in
      if s then - v else v
  | _ => 0
  end.

End Double.

(** ** The scene *)

Record Clock : Set := mkClock {
  tick : nat;
  lastTick : Q;
  tps : Q;
  elapsed : Q;
  prevElapsed : Q;
  animOffset : Q
}.

(** All the state the handlers and the frame callback read and write:
    the store, the pending [setTimeout] callbacks, the [hover] React state,
    the three refs and the [tps] control. *)
Record Scene : Set := mkScene {
  store : Store;
  timers : list Timer;
  hover : list slot;
  clock : Clock;
  mouse : MouseRef;
  drag : DragRef;
  tps_control : Q
}.

Definition initialClock : Clock := mkClock 0 0 30 0 0 0.

Definition initialMouse : MouseRef := mkMouse (0, 0) (0, 0) None.

Definition initialDrag : DragRef :=
  DragRef.mk 0 0 0 0 0 0 None false false.

(** [Array(n)] *)
Definition Array (n : nat) : list slot := repeat Hole n.

(** The scene once the [setCards(cardCount)] effect and the hover rebuild
    effect have run. *)
Definition initialScene (cardCount : nat) : Scene :=
  let st := setCards cardCount (mkStore [] 0) in
  mkScene st [] (Array (List.length (cards st)))
          initialClock initialMouse initialDrag (tps initialClock).

Definition with_store (s : Scene) (st : Store) : Scene :=
  mkScene st (timers s) (hover s) (clock s) (mouse s) (drag s) (tps_control s).

Definition with_store_timers (s : Scene) (r : Store * list Timer) : Scene :=
  mkScene (fst r) (timers s ++ snd r) (hover s) (clock s) (mouse s) (drag s)
          (tps_control s).

Definition with_hover (s : Scene) (h : list slot) : Scene :=
  mkScene (store s) (timers s) h (clock s) (mouse s) (drag s) (tps_control s).

Definition with_clock (s : Scene) (c : Clock) : Scene :=
  mkScene (store s) (timers s) (hover s) c (mouse s) (drag s) (tps_control s).

Definition with_mouse (s : Scene) (m : MouseRef) : Scene :=
  mkScene (store s) (timers s) (hover s) (clock s) m (drag s) (tps_control s).

Definition with_drag (s : Scene) (d : DragRef) : Scene :=
  mkScene (store s) (timers s) (hover s) (clock s) (mouse s) d (tps_control s).

(** *** Array operations of the hover handlers *)

(** [hover.map((x) => false)]: holes stay holes. *)
Definition map_false (h : list slot) : list slot :=
  map (fun s => match s with Hole => Hole | _ => Flag false end) h.

(** [[...h]]: holes become [undefined]. *)
Definition spread (h : list slot) : list slot :=
  map (fun s => match s with Hole => Undefined | _ => s end) h.

(** [n.splice(i, 1, v)]: past the end nothing is removed and [v] is
    appended. *)
Definition splice1 (i : nat) (v : slot) (n : list slot) : list slot :=
  firstn i n ++ v :: skipn (S i) n.

(** *** Gesture handlers ([useGesture]) *)

(** Capture mouse pos and velocity while dragging; [point] is [e.point]. *)
Definition onDrag (i : nat) (point velocity direction : Q * Q) (s : Scene)
  : Scene :=
  let d := drag s in
  with_drag s
    (DragRef.mk (fst point) (snd point) (fst velocity) (snd velocity)
                (fst direction) (snd direction)
                (DragRef.i d) (DragRef.dragging d) (DragRef.dragged d)).

(** Track an object being dragged. *)
Definition onDragStart (i : nat) (s : Scene) : Scene :=
  let d := drag s in
  with_drag s
    (DragRef.mk (DragRef.x d) (DragRef.y d) (DragRef.vX d) (DragRef.vY d)
                (DragRef.dX d) (DragRef.dY d) (Some i) true true).

(** Track an object being dropped. *)
Definition onDragEnd (i : nat) (s : Scene) : Scene :=
  let d := drag s in
  (* Let the user change the focus by dropping a card on the table *)
  let st :=
    if truthy_index (DragRef.i d) && Qgtb (snd (position (mouse s))) (-0.3)
    then match DragRef.i d with
         | Some di => setFocus di (store s)
         | None => store s
         end
    else store s in
  with_drag (with_store s st)
    (DragRef.mk (DragRef.x d) (DragRef.y d) (DragRef.vX d) (DragRef.vY d)
                (DragRef.dX d) (DragRef.dY d) None false (DragRef.dragged d)).

(** Track mouse pos while hovering an object. *)
Definition onMove (point : Q * Q) (eventObject : Object3D) (s : Scene)
  : Scene :=
  with_mouse s (mkMouse (position (mouse s)) point (Some eventObject)).

(** *** React handlers ([bindReactGestures]) *)

(** One call of [springApi.start(fn)]: the springs [fn] returned props for,
    with the props. *)
Definition SpringCall : Set := list (nat * SpringProps).

(** How a handler or a frame ends: the scene it leaves, the calls of
    [springApi.start] it made, the indices it called the store's [flip]
    with, and the exception it threw, if any. *)
Record Outcome : Set := mkOutcome {
  after : Scene;
  calls : list SpringCall;
  flips : list nat;
  thrown : option exn
}.

Definition returns (s : Scene) : Outcome := mkOutcome s [] [] None.

(** Change or flip focus on click.  An exception of [flip] leaves the
    handler before [setHover].  ([e.stopPropagation()] only keeps the event
    from other meshes.) *)
Definition onClick (i : nat) (s : Scene) : Outcome :=
  let d := drag s in
  (* Don't trigger the click handler after a drag event *)
  if DragRef.dragged d then
    returns (with_drag s
               (DragRef.mk (DragRef.x d) (DragRef.y d) (DragRef.vX d)
                           (DragRef.vY d) (DragRef.dX d) (DragRef.dY d)
                           (DragRef.i d) (DragRef.dragging d) false))
  else if Nat.eqb (focus (store s)) i then
    (* Flip the focus card on click *)
    match flip (focus (store s)) (store s) with
    | Ok r =>
        mkOutcome (with_hover (with_store_timers s r) (map_false (hover s)))
                  [] [focus (store s)] None
    | Err e => mkOutcome s [] [focus (store s)] (Some e)
    end
  else
    (* Set focus on a card on click *)
    returns (with_hover (with_store s (setFocus i (store s)))
                        (map_false (hover s))).

Definition onPointerOver (i : nat) (s : Scene) : Scene :=
  let n := spread (map_false (hover s)) in
  with_hover s (splice1 i (Flag true) n).

Definition onPointerOut (i : nat) (s : Scene) : Scene :=
  let n := spread (hover s) in
  with_hover s (splice1 i (Flag false) n).

(** The [cardCount] control changes: [setCards(cardCount)], then the effect
    that rebuilds the hover state for the new [cards] array. *)
Definition onCardCount (cardCount : nat) (s : Scene) : Scene :=
  let s1 := with_store s (setCards cardCount (store s)) in
  with_hover s1 (Array (List.length (cards (store s1)))).

(** The oldest pending timer fires (all delays are equal, so timers fire in
    the order they were set): it leaves the queue and its callback runs. *)
Definition onTimer (s : Scene) : Outcome :=
  match timers s with
  | [] => returns s
  | t :: rest =>
      let s1 := mkScene (store s) rest (hover s) (clock s) (mouse s) (drag s)
                        (tps_control s) in
      match runTimer t (store s) with
      | Ok st => returns (with_store s1 st)
      | Err e => mkOutcome s1 [] [] (Some e)
      end
  end.

(** ** The main animation loop *)

(** What the frame callback reads of the renderer's state. *)
Record RootState : Set := mkRoot {
  getElapsedTime : Q;
  state_mouse : Q * Q;
  viewport : Q * Q
}.

(** [springApi.start(fn)] over [n] springs: [fn] is called for each index,
    a spring is updated when [fn] returns props. *)
Definition start (n : nat) (fn : nat -> option SpringProps) : SpringCall :=
  flat_map (fun i => match fn i with
                     | Some p => [(i, p)]
                     | None => []
                     end) (seq 0 n).

(** A constant to enable an animation cycle based on the sine of elapsed
    time. *)
Definition speed : Q := 0.33.

(** Limit mesh/spring updates based on ticks per second: the frame goes on
    when [c.elapsed - c.lastTick >= 1 / c.tps].  [1 / 0] is [Infinity],
    which nothing reaches. *)
Definition tickGate (c : Clock) : bool :=
  if Qeq_bool (tps c) 0 then false
  else Qgeb (elapsed c - lastTick c) (1 / tps c).

(** Trigger a card flip at a certain point in the cycle, i.e. when moving
    from the 90% cycle frame to the 91% cycle frame: the condition under
    which the frame calls [flip(focus)], with the order of evaluation of
    [&&].  [prevCycle] is only read in the inner test. *)
Definition flipTrigger (elapsed : Q) (cycle prevCycle : decimal) : js bool :=
  if Qgtb elapsed 5 && Qgtb (valueOf cycle) 0 then
    d0 <- nthDigit 0 cycle ;;
    if is_num 9 d0 then
      d1 <- nthDigit 1 cycle ;;
      if is_num 1 d1 then
        p1 <- nthDigit 1 prevCycle ;;
        Ok (is_num 0 p1)
      else Ok false
    else Ok false
  else Ok false.

(** Make an object being dragged follow the mouse: the props the callback
    returns for the dragged card, and the callback. *)
Definition dragTarget (state : RootState) (d : DragRef) : SpringProps :=
  mkProps (Some (fst (state_mouse state) * fst (viewport state) / 3,
                 snd (state_mouse state) * snd (viewport state) / 3,
                 1))
          (Some (mkEuler (dragTilt (0, 0, 0) d 1 1) None))
          None
          (Some cardMovementSpringConf).

Definition dragFollow (state : RootState) (d : DragRef) (i : nat)
  : option SpringProps :=
  if strict_eq i (DragRef.i d) then Some (dragTarget state d) else None.

(** Apply interactivity (hover tilt) to focus card. *)
Definition hoverFocus (focus : nat) (cards : list CardType)
    (hover : list slot) (m : MouseRef) (i : nat) : option SpringProps :=
  if Nat.eqb i focus then
    Some (mkProps None (Some (hoverTilt (0, 0, 0) m))
                  (Some (0.85, 0.85, 0.85)) (Some cardSpringConf))
  else Some (cardsLayout i focus cards hover m).

(** Animate the focus card to its new position:
    [Object.assign({}, focusCardLayout, { position, rotation, config })]. *)
Definition idleTarget (cycle wobble : Q) : SpringProps :=
  mkProps
    (Some (cycle * 1,
           vy focusCardLayout_position + wobble * 0.025,
           vz focusCardLayout_position + Qabs (cycle * 0.25)))
    (Some (mkEuler (0, cycle * - Math_PI * 0.05, 0) None))
    (sp_scale focusCardLayout)
    (Some cardSpringConf).

Definition idleCycle (focus : nat) (cycle wobble : Q) (i : nat)
  : option SpringProps :=
  if negb (Nat.eqb i focus) then None
  else Some (idleTarget cycle wobble).

(** Animate the other cards to their position in the layout. *)
Definition layoutOthers (focus : nat) (cards : list CardType)
    (hover : list slot) (m : MouseRef) (d : DragRef) (i : nat)
  : option SpringProps :=
  if Nat.eqb i focus then None
  else if DragRef.dragging d && strict_eq i (DragRef.i d) then None
  else Some (cardsLayout i focus cards hover m).

(** Update the clock and count clock ticks: [clock.current] after the first
    lines of the frame callback, at time [t]. *)
Definition frameClock (t : Q) (s : Scene) : Clock :=
  let c0 := clock s in
  let c1 := mkClock (tick c0) (lastTick c0) (tps_control s) t (elapsed c0)
                    (animOffset c0) in
  if Qgtb (t - lastTick c1) (tps c1)
  then mkClock (S (tick c1)) t (tps c1) (elapsed c1) (prevElapsed c1)
               (animOffset c1)
  else c1.

(** Update mouse position. *)
Definition frameMouse (state : RootState) (s : Scene) : MouseRef :=
  mkMouse (state_mouse state) (hoverPosition (mouse s)) (object (mouse s)).

(** Pause the focus card animation loop while hovering or dragging:
    [focus === drag.current.i || hover[focus]]. *)
Definition paused (s : Scene) : bool :=
  strict_eq (focus (store s)) (DragRef.i (drag s))
  || hovered (hover s) (focus (store s)).

Section Frame.

(** [Math.sin], whose result is implementation-approximated. *)
Variable Math_sin : Q -> decimal.

Definition cycleAt (c : Clock) : decimal :=
  Math_sin ((elapsed c - animOffset c) * speed).

Definition prevCycleAt (c : Clock) : decimal :=
  Math_sin ((prevElapsed c - animOffset c) * speed).

(** The callback of [useFrame].  The scene ref it stores and the debug
    control it resets are not part of the state modelled here. *)
Definition useFrame (state : RootState) (s : Scene) : Outcome :=
  let c := frameClock (getElapsedTime state) s in
  let m := frameMouse state s in
  let s1 := with_mouse (with_clock s c) m in
  (* Limit mesh/spring updates based on ticks per second *)
  if negb (tickGate c) then returns s1
  else
    let focus := focus (store s) in
    let cards := cards (store s) in
    let n := List.length cards in
    let d := drag s in
    let first :=
      if DragRef.dragging d then [start n (dragFollow state d)]
      else if hovered (hover s) focus
           then [start n (hoverFocus focus cards (hover s) m)]
           else [] in
    let others :=
      if negb (DragRef.dragging d)
      then [start n (layoutOthers focus cards (hover s) m d)]
      else [] in
    if paused s then
      (* Track time spent with focus animation paused to prevent jumpy
         states *)
      let c' := mkClock (tick c) (lastTick c) (tps c) (elapsed c)
                        (prevElapsed c)
                        (animOffset c + (elapsed c - prevElapsed c)) in
      mkOutcome (with_clock s1 c') (first ++ others) [] None
    else
      (* Play the focus card animation loop *)
      let cycle := cycleAt c in
      let prevCycle := prevCycleAt c in
      match flipTrigger (elapsed c) cycle prevCycle with
      | Err e => mkOutcome s1 first [] (Some e)
      | Ok fire =>
          let idle :=
            start n (idleCycle focus (valueOf cycle)
                               (valueOf (Math_sin (elapsed c * 2)))) in
          if fire then
            match flip focus (store s) with
            | Err e => mkOutcome s1 first [focus] (Some e)
            | Ok r =>
                mkOutcome (with_store_timers s1 r)
                          (first ++ idle :: others) [focus] None
            end
          else mkOutcome s1 (first ++ idle :: others) [] None
      end.

(** A run of frames, each on the scene the one before left. *)
Fixpoint frames (l : list RootState) (s : Scene) : Scene :=
  match l with
  | [] => s
  | state :: l' => frames l' (after (useFrame state s))
  end.

End Frame.

(** ** A reference [Math.sin]

    ECMAScript leaves the result of [Math.sin] implementation-approximated.
    The general statements below hold for every [Math_sin]; the concrete
    runs use this one: thirty-digit fixed-point arithmetic, the argument
    reduced to [[-pi, pi]], the Taylor series to 26 terms, and the result
    rounded to 16 significant digits. *)

Definition fix_scale : Z := (10 ^ 30)%Z.

Definition fix_pi : Z := 3141592653589793238462643383280%Z.

Definition to_fix (q : Q) : Z := (Qnum q * fix_scale / Zpos (Qden q))%Z.

Definition fix_reduce (x : Z) : Z :=
  ((x + fix_pi) mod (2 * fix_pi) - fix_pi)%Z.

Fixpoint fix_taylor (n : nat) (k : Z) (term r2 acc : Z) : Z :=
  match n with
  | O => acc
  | S n' =>
      let term' :=
        (- (term * r2 / fix_scale) / ((2 * k + 2) * (2 * k + 3)))%Z in
      fix_taylor n' (k + 1)%Z term' r2 (acc + term')%Z
  end.

Definition fix_sin (x : Z) : Z :=
  let r := fix_reduce x in
  fix_taylor 25 0 r (r * r / fix_scale)%Z r.

(** The decimal digits of a natural number, least significant first. *)
Fixpoint rev_digits (fuel : nat) (v : Z) : list nat :=
  match fuel with
  | O => []
  | S f =>
      if (v <=? 0)%Z then []
      else Z.to_nat (v mod 10) :: rev_digits f (v / 10)%Z
  end.

Fixpoint strip_zeros (l : list nat) : list nat :=
  match l with
  | O :: t => strip_zeros t
  | _ => l
  end.

(** [v * 10^-30] rounded to 16 significant digits. *)
Definition fix_to_decimal (v : Z) : decimal :=
  let a := Z.abs v in
  let nd := Z.of_nat (List.length (rev_digits 64 a)) in
  let cut := (nd - 16)%Z in
  let r := if (0 <? cut)%Z
           then ((a + 5 * 10 ^ (cut - 1)) / 10 ^ cut)%Z
           else a in
  let nd' := if (0 <? cut)%Z
             then (Z.of_nat (List.length (rev_digits 64 r)) + cut)%Z
             else nd in
  mkDec (v <? 0)%Z (rev (strip_zeros (rev_digits 64 r))) (nd' - 30)%Z.

Definition sin_ref (x : Q) : decimal := fix_to_decimal (fix_sin (to_fix x)).

(** ** Notions of the statements *)

(** The number of entries of [hover] that are [true]. *)
Definition is_true_flag (x : slot) : bool :=
  match x with
  | Flag true => true
  | _ => false
  end.

Definition hovered_count (h : list slot) : nat :=
  List.length (filter is_true_flag h).

Definition at_most_one_hovered (h : list slot) : Prop :=
  (hovered_count h <= 1)%nat.

(** The animator's effective time. *)
Definition effectiveTime (c : Clock) : Q := elapsed c - animOffset c.

(** The first coordinate of the position [cardsLayout] returns. *)
Definition layout_x (i focus : nat) (cards : list CardType)
    (hover : list slot) (mouse : MouseRef) : option Q :=
  option_map vx (sp_position (cardsLayout i focus cards hover mouse)).

(** The [cardCount] control goes from 1 to 10. *)
Definition cardCount_max : nat := 10.

(** The rounding bounds of the layout: half a unit in the last place of
    1/4 for the phase, of 2 for the first coordinate. *)
Definition phase_ulp : Q := 1 # 18014398509481984.
Definition position_ulp : Q := 1 # 2251799813685248.

(** The facts on the double phase of card [i], decided by evaluation. *)
Definition phase_card_ok (len focus i : nat) : bool :=
  let p := Double.phase i focus len in
  Qle_bool (Qabs (Double.toQ (Double.position_x i focus len)
                  - phase i focus len
                    * (inject_Z (layout_num len) * 0.6)))
           position_ulp
  && if (layout_num len =? 1)%Z then (p =? 0)%float
     else negb (Double.num len - 1 =? 0)%float
          && (-0.5 <=? p)%float && (p <=? 0.5)%float
          && Qle_bool (Qabs (Double.toQ p - phase i focus len)) phase_ulp
          && implb (layout_j i focus =? 0)%Z (p =? -0.5)%float
          && implb (layout_j i focus =? layout_num len - 1)%Z
                   (p =? 0.5)%float
          && implb (layout_j i focus =? 0)%Z
                   (Double.position_x i focus len
                    =? -0.5 * Double.width len)%float
          && implb (layout_j i focus =? layout_num len - 1)%Z
                   (Double.position_x i focus len
                    =? 0.5 * Double.width len)%float.

(** The facts on the double phases of two cards [i] and [i']. *)
Definition phase_pair_ok (len focus i i' : nat) : bool :=
  let p := Double.phase i focus len in
  let p' := Double.phase i' focus len in
  implb (Nat.ltb i i')
        ((p <? p')%float
         && (Double.position_x i focus len
             <? Double.position_x i' focus len)%float)
  && implb (layout_j i focus + layout_j i' focus =? layout_num len - 1)%Z
           (abs (p + p') <=? 0x1p-54)%float.

(** Every row the control allows: the focus and the cards out of focus. *)
Definition layout_rows_ok : bool :=
  forallb (fun len =>
    forallb (fun focus =>
      forallb (fun i =>
        Nat.eqb i focus
        || (phase_card_ok len focus i
            && forallb (fun i' =>
                 Nat.eqb i' focus || phase_pair_ok len focus i i')
                 (seq 0 len)))
        (seq 0 len))
      (seq 0 len))
    (seq 0 (S cardCount_max)).

(** ** Sample scenes *)

(** A frame at time [t] with the pointer at the centre of an 8 by 6
    viewport. *)
Definition frameAt (t : Q) : RootState := mkRoot t (0, 0) (8, 6).

(** Four cards; a click moves the focus to card [focus0], card [target] is
    dragged, and the frame at 1 s sees the pointer at normalized height
    [my]. *)
Definition dropScene (focus0 target : nat) (my : Q) : Scene :=
  after (useFrame sin_ref (mkRoot 1 (0, my) (8, 6))
           (onDragStart target (after (onClick focus0 (initialScene 4))))).

(** Four cards; the pointer enters card 1, which is then dragged and
    dropped. *)
Definition hoverThenDrag : Scene :=
  onDragEnd 1 (onDragStart 1 (onPointerOver 1 (initialScene 4))).

(** Four unflipped cards with the focus on the last one. *)
Definition fourCards : Store := setFocus 3 (setCards 4 (mkStore [] 0)).

(** Five cards with the focus on card 2. *)
Definition fiveCards : Store := setFocus 2 (setCards 5 (mkStore [] 0)).

(** Numbers as [Math.sin] can return them. *)
Definition one : decimal := mkDec false [1%nat] 1.
Definition dec_0_9 : decimal := mkDec false [9%nat] 0.
Definition dec_9e_7 : decimal := mkDec false [9%nat] (-6).

(** Four cards, no interaction, the frame at 22.50 s done. *)
Definition risingScene : Scene :=
  frames sin_ref [frameAt 22.50] (initialScene 4).

(** Four cards, no interaction, the frame at 22.4 s done. *)
Definition lateScene : Scene := frames sin_ref [frameAt 22.4] (initialScene 4).

(** Four cards with the focus on card 0; card 1 is being dragged and the
    frame at 22.50 s is done. *)
Definition draggingOther : Scene :=
  frames sin_ref [frameAt 22.50] (onDragStart 1 (initialScene 4)).

(** Four cards with the focus on card 0, which is being dragged. *)
Definition draggingFocus : Scene := onDragStart 0 (initialScene 4).

(** Four cards with the pointer over the focused card 0. *)
Definition hoveringFocus : Scene := onPointerOver 0 (initialScene 4).

(** ** The card component *)

(** Lift and rotate the card based on props: what the second effect of
    [Card] hands to [spring.start], with [lift || 0]. *)
Definition Card_effect (flip : bool) (lift : option Q) : SpringProps :=
  mkProps (Some (0, 0, match lift with Some l => l | None => 0 end))
          (Some (mkEuler (0, if flip then 0 else Math_PI, 0) None))
          None
          (Some cardSpringConf).

(** The props [Scene] passes to the card of index [i]. *)
Definition cardProps (st : Store) (i : nat) : option SpringProps :=
  match nth_error (cards st) i with
  | Some c => Some (Card_effect (Card.flip c) (Card.lift c))
  | None => None
  end.

(** ** Events

    The handlers and the frame callback, dispatched on one type of events. *)

Inductive Event : Set :=
| DragStart (i : nat)
| Drag (i : nat) (point velocity direction : Q * Q)
| DragEnd (i : nat)
| Move (point : Q * Q) (eventObject : Object3D)
| Click (i : nat)
| PointerOver (i : nat)
| PointerOut (i : nat)
| CardCount (cardCount : nat)
| TimerFires
| Frame (state : RootState).

Definition step (Math_sin : Q -> decimal) (e : Event) (s : Scene) : Outcome :=
  match e with
  | DragStart i => returns (onDragStart i s)
  | Drag i p v d => returns (onDrag i p v d s)
  | DragEnd i => returns (onDragEnd i s)
  | Move p o => returns (onMove p o s)
  | Click i => onClick i s
  | PointerOver i => returns (onPointerOver i s)
  | PointerOut i => returns (onPointerOut i s)
  | CardCount n => returns (onCardCount n s)
  | TimerFires => onTimer s
  | Frame state => useFrame Math_sin state s
  end.

(** A run of events, each on the scene the one before left (an exception
    ends the handler, not the run). *)
Fixpoint run (Math_sin : Q -> decimal) (es : list Event) (s : Scene) : Scene :=
  match es with
  | [] => s
  | e :: es' => run Math_sin es' (after (step Math_sin e s))
  end.

(** The index a pending timer will write to. *)
Definition timer_index (t : Timer) : nat :=
  match t with LiftReset i _ => i end.

(** Every pending timer points at an existing card. *)
Definition timers_in_range (s : Scene) : Prop :=
  Forall (fun t => (timer_index t < List.length (cards (store s)))%nat)
         (timers s).

(** No event of the list changes the card collection. *)
Definition keeps_cards (e : Event) : bool :=
  match e with
  | CardCount _ => false
  | _ => true
  end.

(** The frames of a run come at times that do not go back, from [t0] on. *)
Fixpoint times_ordered (t0 : Q) (l : list RootState) : Prop :=
  match l with
  | [] => True
  | state :: l' =>
      t0 <= getElapsedTime state /\ times_ordered (getElapsedTime state) l'
  end.

(** A drag-move event. *)
Definition is_drag (e : Event) : bool :=
  match e with
  | Drag _ _ _ _ => true
  | _ => false
  end.

(** The props the hover branch of the frame gives the focused card. *)
Definition hoverFocusTarget (m : MouseRef) : SpringProps :=
  mkProps None (Some (hoverTilt (0, 0, 0) m)) (Some (0.85, 0.85, 0.85))
          (Some cardSpringConf).

(** * Properties *)

(** ** Comparisons *)

Lemma Qgtb_true (a b : Q) : Qgtb a b = true <-> b < a.
Proof.
  unfold Qgtb. rewrite negb_true_iff. split; intro H.
  - apply Qnot_le_lt. intro Hle. apply Qle_bool_iff in Hle. congruence.
  - destruct (Qle_bool a b) eqn:E; [|reflexivity].
    apply Qle_bool_iff in E. apply Qle_not_lt in E. contradiction.
Qed.

Lemma Qgtb_false (a b : Q) : Qgtb a b = false <-> a <= b.
Proof.
  unfold Qgtb. rewrite negb_false_iff. apply Qle_bool_iff.
Qed.

Lemma Qgeb_true (a b : Q) : Qgeb a b = true <-> b <= a.
Proof. unfold Qgeb. apply Qle_bool_iff. Qed.

Lemma Qgeb_false (a b : Q) : Qgeb a b = false <-> a < b.
Proof.
  unfold Qgeb. split; intro H.
  - apply Qnot_le_lt. intro Hle. apply Qle_bool_iff in Hle. congruence.
  - destruct (Qle_bool b a) eqn:E; [|reflexivity].
    apply Qle_bool_iff in E. apply Qle_not_lt in E. contradiction.
Qed.

(** ** The drag state machine *)

Lemma onDragEnd_resets (i : nat) (s : Scene) :
  DragRef.dragging (drag (onDragEnd i s)) = false /\
  DragRef.i (drag (onDragEnd i s)) = None /\
  DragRef.dragged (drag (onDragEnd i s)) = DragRef.dragged (drag s).
Proof. unfold onDragEnd; simpl. auto. Qed.

(** Drag-end on a target other than card 0: the focus moves to the target
    exactly when the pointer is above the threshold. *)
Lemma onDragEnd_positive_target (i : nat) (s : Scene) (di : nat) :
  DragRef.i (drag s) = Some (S di) ->
  focus (store (onDragEnd i s)) =
    if Qgtb (snd (position (mouse s))) (-0.3) then S di else focus (store s).
Proof.
  intro H. unfold onDragEnd. rewrite H. simpl.
  destruct (Qgtb (snd (position (mouse s))) (-0.3)); reflexivity.
Qed.

(** Drag-end on card 0: [drag.current.i] is [0], which is falsy, and the
    focus stays whatever the pointer height. *)
Lemma onDragEnd_target_zero (i : nat) (s : Scene) :
  DragRef.i (drag s) = Some 0%nat ->
  focus (store (onDragEnd i s)) = focus (store s).
Proof. intro H. unfold onDragEnd. rewrite H. reflexivity. Qed.

(** C1. Drag-end with the target index set and the pointer at normalized
    height -0.29 (above the -0.3 threshold) should move the focus to the
    target.  With card 0 as the target and the focus on card 2 the focus is
    still 2 after the drop, while the same drop of card 1 moves it and a
    drop at -0.31 does not; [dragging] and the target are reset in every
    case. *)
Theorem C1_drop_of_card_zero_keeps_focus :
  DragRef.i (drag (dropScene 2 0 (-0.29))) = Some 0%nat /\
  focus (store (dropScene 2 0 (-0.29))) = 2%nat /\
  snd (position (mouse (dropScene 2 0 (-0.29)))) = -0.29 /\
  focus (store (onDragEnd 0 (dropScene 2 0 (-0.29)))) = 2%nat /\
  focus (store (onDragEnd 1 (dropScene 2 1 (-0.29)))) = 1%nat /\
  focus (store (onDragEnd 1 (dropScene 2 1 (-0.31)))) = 2%nat /\
  DragRef.dragging (drag (onDragEnd 0 (dropScene 2 0 (-0.29)))) = false /\
  DragRef.i (drag (onDragEnd 0 (dropScene 2 0 (-0.29)))) = None.
Proof. vm_compute. repeat split; reflexivity. Qed.

(** C9. After drag-start, drag-move and drag-end (on any cards, with any
    payload) the [dragged] flag is true at each step, and the click that
    follows returns without calling [flip] or [setFocus]: the scene it leaves
    is the scene before it with [dragged] reset to false. *)
Theorem C9_click_after_drag_is_swallowed
    (s : Scene) (i1 i2 i3 i4 : nat) (point velocity direction : Q * Q) :
  let s1 := onDragStart i1 s in
  let s2 := onDrag i2 point velocity direction s1 in
  let s3 := onDragEnd i3 s2 in
  let o := onClick i4 s3 in
  DragRef.dragged (drag s1) = true /\
  DragRef.dragged (drag s2) = true /\
  DragRef.dragged (drag s3) = true /\
  thrown o = None /\ flips o = [] /\ calls o = [] /\
  store (after o) = store s3 /\
  timers (after o) = timers s3 /\
  hover (after o) = hover s3 /\
  clock (after o) = clock s3 /\
  mouse (after o) = mouse s3 /\
  drag (after o) =
    DragRef.mk (DragRef.x (drag s3)) (DragRef.y (drag s3))
               (DragRef.vX (drag s3)) (DragRef.vY (drag s3))
               (DragRef.dX (drag s3)) (DragRef.dY (drag s3))
               (DragRef.i (drag s3)) (DragRef.dragging (drag s3)) false.
Proof.
  intros s1 s2 s3 o.
  assert (H3 : DragRef.dragged (drag s3) = true) by reflexivity.
  subst o. unfold onClick. rewrite H3. simpl.
  repeat split; reflexivity.
Qed.

(** ** The hover flags *)

Lemma splice1_nil (i : nat) (v : slot) : splice1 i v [] = [v].
Proof. unfold splice1. destruct i; reflexivity. Qed.

Lemma splice1_cons (i : nat) (v a : slot) (n : list slot) :
  splice1 (S i) v (a :: n) = a :: splice1 i v n.
Proof. reflexivity. Qed.

Lemma nth_error_splice1 (v : slot) (n : list slot) :
  forall i k,
    nth_error (splice1 i v n) k =
    if Nat.eqb k (Nat.min i (List.length n)) then Some v else nth_error n k.
Proof.
  induction n as [|a n IH]; intros i k.
  - rewrite splice1_nil, Nat.min_0_r.
    destruct k as [|k]; simpl; [reflexivity|]. destruct k; reflexivity.
  - destruct i as [|i].
    + destruct k; reflexivity.
    + rewrite splice1_cons. destruct k as [|k]; simpl; [reflexivity|].
      apply IH.
Qed.

Lemma hovered_count_cons (a : slot) (n : list slot) :
  hovered_count (a :: n) =
  ((if is_true_flag a then 1 else 0) + hovered_count n)%nat.
Proof. unfold hovered_count. simpl. destruct (is_true_flag a); reflexivity. Qed.

Lemma hovered_count_splice1 (v : slot) (n : list slot) :
  forall i,
    (hovered_count (splice1 i v n) <= hovered_count n + hovered_count [v])%nat.
Proof.
  induction n as [|a n IH]; intro i.
  - rewrite splice1_nil. simpl. lia.
  - destruct i as [|i].
    + unfold splice1. simpl firstn. simpl skipn. simpl app.
      rewrite !hovered_count_cons. simpl. lia.
    + specialize (IH i). rewrite splice1_cons.
      rewrite (hovered_count_cons a (splice1 i v n)), (hovered_count_cons a n).
      lia.
Qed.

Lemma hovered_count_map_false (h : list slot) :
  hovered_count (map_false h) = 0%nat.
Proof.
  induction h as [|a h IH]; [reflexivity|].
  unfold map_false in *. simpl. rewrite hovered_count_cons, IH.
  destruct a; reflexivity.
Qed.

Lemma hovered_count_spread (h : list slot) :
  hovered_count (spread h) = hovered_count h.
Proof.
  induction h as [|a h IH]; [reflexivity|].
  unfold spread in *. simpl. rewrite !hovered_count_cons, IH.
  destruct a; reflexivity.
Qed.

Lemma hovered_count_Array (n : nat) : hovered_count (Array n) = 0%nat.
Proof.
  induction n as [|n IH]; [reflexivity|].
  unfold Array in *. simpl. rewrite hovered_count_cons, IH. reflexivity.
Qed.

Lemma hovered_map_false (h : list slot) (k : nat) :
  hovered (map_false h) k = false.
Proof.
  unfold hovered, map_false. rewrite nth_error_map.
  destruct (nth_error h k) as [[| |b]|]; reflexivity.
Qed.

Lemma hovered_spread (h : list slot) (k : nat) :
  hovered (spread h) k = hovered h k.
Proof.
  unfold hovered, spread. rewrite nth_error_map.
  destruct (nth_error h k) as [[| |b]|]; reflexivity.
Qed.

Lemma hovered_Array (n k : nat) : hovered (Array n) k = false.
Proof.
  unfold hovered, Array.
  destruct (nth_error (repeat Hole n) k) as [x|] eqn:E; [|reflexivity].
  apply nth_error_In, repeat_spec in E. subst x. reflexivity.
Qed.

Lemma hovered_past_end (h : list slot) (k : nat) :
  (List.length h <= k)%nat -> hovered h k = false.
Proof.
  intro H. unfold hovered. apply nth_error_None in H. rewrite H. reflexivity.
Qed.

Lemma onPointerOver_hovered (i : nat) (s : Scene) (k : nat) :
  hovered (hover (onPointerOver i s)) k =
  Nat.eqb k (Nat.min i (List.length (hover s))).
Proof.
  unfold onPointerOver. simpl. unfold hovered at 1.
  rewrite nth_error_splice1.
  unfold spread, map_false. rewrite !length_map.
  destruct (Nat.eqb k (Nat.min i (List.length (hover s)))); [reflexivity|].
  fold (map_false (hover s)). fold (spread (map_false (hover s))).
  fold (hovered (spread (map_false (hover s))) k).
  rewrite hovered_spread. apply hovered_map_false.
Qed.

Lemma onPointerOut_hovered (i : nat) (s : Scene) (k : nat) :
  hovered (hover (onPointerOut i s)) k =
  hovered (hover s) k && negb (Nat.eqb k i).
Proof.
  unfold onPointerOut. simpl. unfold hovered at 1.
  rewrite nth_error_splice1.
  assert (L : List.length (spread (hover s)) = List.length (hover s))
    by (unfold spread; apply length_map).
  rewrite L.
  destruct (Nat.eqb k (Nat.min i (List.length (hover s)))) eqn:E.
  - apply Nat.eqb_eq in E.
    destruct (Nat.le_gt_cases i (List.length (hover s))) as [Hle|Hgt].
    + rewrite Nat.min_l in E by exact Hle. subst k.
      rewrite Nat.eqb_refl. simpl. rewrite andb_false_r. reflexivity.
    + rewrite Nat.min_r in E by lia. subst k.
      rewrite hovered_past_end by lia. reflexivity.
  - fold (hovered (spread (hover s)) k). rewrite hovered_spread.
    apply Nat.eqb_neq in E.
    destruct (Nat.eqb k i) eqn:Eki.
    + apply Nat.eqb_eq in Eki. subst k.
      destruct (Nat.min_spec i (List.length (hover s))) as [[H1 H2]|[H1 H2]];
        [congruence|].
      rewrite hovered_past_end by lia. reflexivity.
    + simpl. rewrite andb_true_r. reflexivity.
Qed.

(** A click the drag guard lets through, whose [flip] does not throw,
    leaves no flag true. *)
Lemma onClick_clears_hover (i : nat) (s : Scene) (k : nat) :
  DragRef.dragged (drag s) = false ->
  thrown (onClick i s) = None ->
  hovered (hover (after (onClick i s))) k = false.
Proof.
  intros Hd Ht. unfold onClick in *. rewrite Hd in *.
  destruct (Nat.eqb (focus (store s)) i).
  - destruct (flip (focus (store s)) (store s)); simpl in *.
    + apply hovered_map_false.
    + discriminate.
  - simpl. apply hovered_map_false.
Qed.

Lemma onClick_hover_count (i : nat) (s : Scene) :
  (hovered_count (hover (after (onClick i s))) <= hovered_count (hover s))%nat.
Proof.
  unfold onClick.
  destruct (DragRef.dragged (drag s)); [simpl; lia|].
  destruct (Nat.eqb (focus (store s)) i).
  - destruct (flip (focus (store s)) (store s)); simpl.
    + rewrite hovered_count_map_false. lia.
    + lia.
  - simpl. rewrite hovered_count_map_false. lia.
Qed.

(** C10 (as stated, at a click that follows a drag).  The pointer enters
    card 1, the card is dragged and dropped, and the click that ends the
    gesture returns at the drag guard: the flag of card 1 is still true. *)
Lemma C10_click_after_drag_keeps_flag :
  hovered (hover hoverThenDrag) 1 = true /\
  thrown (onClick 1 hoverThenDrag) = None /\
  hovered (hover (after (onClick 1 hoverThenDrag))) 1 = true.
Proof. repeat split; reflexivity. Qed.

(** C10 (amended).  The hover flags hold at most one true entry, and every
    handler keeps it so: pointer-over on [i] leaves exactly the flag it
    writes true (index [i], or the end of the array when [i] is past it);
    pointer-out on [i] makes flag [i] false and changes the reading of no
    other flag; a click that the drag guard lets through clears every flag,
    a click swallowed by the guard leaves the flags as they are; the
    rebuild on a change of the card collection has no true entry. *)
Theorem C10_hover_flags_at_most_one (s : Scene) (i n : nat) :
  at_most_one_hovered (hover s) ->
  (forall k, hovered (hover (onPointerOver i s)) k =
             Nat.eqb k (Nat.min i (List.length (hover s)))) /\
  (forall k, hovered (hover (onPointerOut i s)) k =
             hovered (hover s) k && negb (Nat.eqb k i)) /\
  (DragRef.dragged (drag s) = false -> thrown (onClick i s) = None ->
   forall k, hovered (hover (after (onClick i s))) k = false) /\
  (DragRef.dragged (drag s) = true ->
   hover (after (onClick i s)) = hover s) /\
  (forall k, hovered (hover (onCardCount n s)) k = false) /\
  at_most_one_hovered (hover (onPointerOver i s)) /\
  at_most_one_hovered (hover (onPointerOut i s)) /\
  at_most_one_hovered (hover (after (onClick i s))) /\
  at_most_one_hovered (hover (onCardCount n s)).
Proof.
  intro Inv. unfold at_most_one_hovered in *.
  repeat split.
  - intro k. apply onPointerOver_hovered.
  - intro k. apply onPointerOut_hovered.
  - intros Hd Ht k. apply onClick_clears_hover; assumption.
  - intro Hd. unfold onClick. rewrite Hd. reflexivity.
  - intro k. unfold onCardCount. simpl. apply hovered_Array.
  - unfold onPointerOver, with_hover. cbn [hover].
    pose proof (hovered_count_splice1 (Flag true)
                  (spread (map_false (hover s))) i) as H.
    rewrite hovered_count_spread, hovered_count_map_false in H.
    change (hovered_count [Flag true]) with 1%nat in H. exact H.
  - unfold onPointerOut, with_hover. cbn [hover].
    pose proof (hovered_count_splice1 (Flag false) (spread (hover s)) i) as H.
    rewrite hovered_count_spread in H.
    change (hovered_count [Flag false]) with 0%nat in H. lia.
  - pose proof (onClick_hover_count i s). lia.
  - unfold onCardCount. simpl. rewrite hovered_count_Array. lia.
Qed.

(** The statement of C10 at [hoverThenDrag], pointer-over on card 2. *)
Lemma C10_hover_flags_witness :
  at_most_one_hovered (hover hoverThenDrag) /\
  hovered (hover (onPointerOver 2 hoverThenDrag)) 2 = true /\
  hovered (hover (onPointerOver 2 hoverThenDrag)) 1 = false /\
  at_most_one_hovered (hover (onPointerOver 2 hoverThenDrag)).
Proof.
  assert (Inv : at_most_one_hovered (hover hoverThenDrag))
    by (unfold at_most_one_hovered; vm_compute; lia).
  destruct (C10_hover_flags_at_most_one hoverThenDrag 2 4 Inv)
    as (Hover & _ & _ & _ & _ & Hinv & _).
  split; [exact Inv|].
  split; [rewrite Hover; reflexivity|].
  split; [rewrite Hover; reflexivity|exact Hinv].
Defined.

(** ** The store and the deferred reset of [bump] *)

Lemma assign_out_of_range (f : CardType -> CardType) (l : list CardType) :
  forall i, (List.length l <= i)%nat -> assign f i l = Err TypeError.
Proof.
  induction l as [|c l IH]; intros i H; [reflexivity|].
  destruct i as [|i]; simpl in *; [lia|].
  rewrite IH by lia. reflexivity.
Qed.

Lemma assign_in_range (f : CardType -> CardType) (l : list CardType) :
  forall i, (i < List.length l)%nat ->
    exists l', assign f i l = Ok l' /\ List.length l' = List.length l.
Proof.
  induction l as [|c l IH]; intros i H; simpl in *; [lia|].
  destruct i as [|i].
  - eexists. split; reflexivity.
  - destruct (IH i) as (l' & E & L); [lia|].
    rewrite E. simpl. eexists. split; [reflexivity|]. simpl. congruence.
Qed.

Lemma bump_in_range (i : nat) (s : Store) :
  (i < List.length (cards s))%nat ->
  exists s', bump i s = Ok (s', [LiftReset i 100]) /\
             List.length (cards s') = List.length (cards s) /\
             focus s' = focus s.
Proof.
  intro H. unfold bump.
  destruct (assign_in_range (set_lift 4.5) (cards s) i H) as (l' & E & L).
  rewrite E. simpl. eexists. repeat split. exact L.
Qed.

Lemma setCards_length (n : nat) (s : Store) :
  List.length (cards (setCards n s)) = n /\ focus (setCards n s) = 0%nat.
Proof. unfold setCards. simpl. rewrite repeat_length. auto. Qed.

(** The deferred callback on an index that no longer exists: [cards[i]] is
    [undefined] and the assignment to its [lift] throws. *)
Lemma runTimer_removed_index (i d : nat) (s : Store) :
  (List.length (cards s) <= i)%nat ->
  runTimer (LiftReset i d) s = Err TypeError.
Proof.
  intro H. unfold runTimer. rewrite assign_out_of_range by exact H.
  reflexivity.
Qed.

(** [bump(i)] on an existing card, then a replacement of the collection by
    [n <= i] cards before the timer fires: the callback throws, and the
    scene keeps the store it had. *)
Lemma bump_then_shrink_throws (i n : nat) (s : Scene) :
  (i < List.length (cards (store s)))%nat -> (n <= i)%nat ->
  exists r,
    bump i (store s) = Ok r /\ snd r = [LiftReset i 100] /\
    let s1 := onCardCount n
                (mkScene (fst r) (snd r) (hover s) (clock s) (mouse s)
                         (drag s) (tps_control s)) in
    thrown (onTimer s1) = Some TypeError /\
    store (after (onTimer s1)) = store s1.
Proof.
  intros Hi Hn.
  destruct (bump_in_range i (store s) Hi) as (s' & E & _ & _).
  exists (s', [LiftReset i 100]). split; [exact E|]. split; [reflexivity|].
  simpl. unfold onTimer. simpl.
  rewrite assign_out_of_range; [simpl; auto|].
  rewrite repeat_length. exact Hn.
Qed.

(** C4. The deferred lift reset of [bump] should be a safe no-op when its
    index was removed before it fires.  With four cards, [bump(3)] sets the
    lift and schedules the reset; the collection is then replaced by two
    cards; the callback throws a [TypeError] at [cards[3].lift = 0].  (On an
    index that still exists it returns.) *)
Theorem C4_reset_on_removed_index_throws :
  exists s1 t,
    bump 3 fourCards = Ok (s1, [t]) /\
    t = LiftReset 3 100 /\
    List.length (cards (setCards 2 s1)) = 2%nat /\
    runTimer t (setCards 2 s1) = Err TypeError /\
    (exists s2, runTimer t s1 = Ok s2).
Proof.
  eexists. eexists. split; [reflexivity|].
  repeat split. eexists. reflexivity.
Qed.

(** ** The layout of the cards out of focus *)

Lemma Qdiv_unit_interval (a b : Q) :
  0 <= a -> a <= b -> 0 < b -> 0 <= a / b /\ a / b <= 1.
Proof.
  intros Ha Hab Hb. split.
  - apply Qle_shift_div_l; [exact Hb|]. lra.
  - apply Qle_shift_div_r; [exact Hb|]. lra.
Qed.

Lemma layout_j_range (i focus len : nat) :
  (i < len)%nat -> (focus < len)%nat -> i <> focus ->
  (0 <= layout_j i focus <= layout_num len - 1)%Z.
Proof.
  intros Hi Hf Hne. unfold layout_j, layout_num.
  destruct (Nat.ltb focus i) eqn:E.
  - apply Nat.ltb_lt in E. lia.
  - apply Nat.ltb_ge in E. lia.
Qed.

(** The rows the [cardCount] control allows, evaluated on doubles. *)
Lemma layout_rows_checked : layout_rows_ok = true.
Proof. vm_compute. reflexivity. Qed.

Lemma layout_row_facts (len focus i : nat) :
  (len <= cardCount_max)%nat -> (i < len)%nat -> (focus < len)%nat ->
  i <> focus ->
  phase_card_ok len focus i = true /\
  forall i', (i' < len)%nat -> i' <> focus ->
    phase_pair_ok len focus i i' = true.
Proof.
  intros Hlen Hi Hf Hne.
  pose proof layout_rows_checked as H. unfold layout_rows_ok in H.
  rewrite forallb_forall in H.
  assert (H1 := H len). clear H.
  rewrite forallb_forall in H1.
  assert (H2 := fun P => H1 P focus). clear H1.
  rewrite forallb_forall in H2.
  assert (H3 := fun P Q => H2 P Q i). clear H2.
  assert (Hin : forall a b, (a < b)%nat -> In a (seq 0 b))
    by (intros a b L; apply in_seq; lia).
  assert (Hl : (len < S cardCount_max)%nat) by lia.
  specialize (H3 (Hin _ _ Hl) (Hin _ _ Hf) (Hin _ _ Hi)).
  destruct (Nat.eqb_spec i focus) as [E|_]; [contradiction|].
  simpl in H3. apply andb_true_iff in H3. destruct H3 as [A B].
  split; [exact A|]. intros i' Hi' Hne'.
  rewrite forallb_forall in B. specialize (B i' (Hin _ _ Hi')).
  destruct (Nat.eqb_spec i' focus) as [E|_]; [contradiction|].
  exact B.
Qed.

Lemma layout_x_value (i focus : nat) (cards : list CardType)
    (hover : list slot) (mouse : MouseRef) :
  layout_x i focus cards hover mouse =
  Some (phase i focus (List.length cards)
        * (inject_Z (layout_num (List.length cards)) * 0.6)).
Proof. reflexivity. Qed.

(** C8 (as stated, on the doubles of the code).  For five cards and the
    focus on card 2 the phases of cards 0, 1, 3 and 4 are -0.5,
    -0.16666666666666669, 0.16666666666666663 and 0.5: the phases of cards
    1 and 3 are not opposite, their sum is -2^-54. *)
Lemma C8_inner_phases_not_opposite :
  (Double.phase 0 2 5 =? -0.5)%float = true /\
  (Double.phase 1 2 5 =? -0.16666666666666669)%float = true /\
  (Double.phase 3 2 5 =? 0.16666666666666663)%float = true /\
  (Double.phase 4 2 5 =? 0.5)%float = true /\
  (Double.phase 1 2 5 =? - Double.phase 3 2 5)%float = false /\
  (Double.phase 1 2 5 + Double.phase 3 2 5 =? - 0x1p-54)%float = true.
Proof. vm_compute. repeat split; reflexivity. Qed.

(** C8 (amended).  For a card [i] out of focus in a row of at most ten
    cards with the focus on an existing card, computed on doubles as
    [cardsLayout] does.  The first coordinate of the position [cardsLayout]
    returns is [phase * width], up to rounding.  With one card out of focus
    the phase is 0.  Otherwise the divisor [num - 1] is not zero, the phase
    lies in [-0.5, 0.5], is the rounding of [j / (num - 1) - 0.5] (within
    2^-54 of it), is -0.5 at the first place of the row and 0.5 at the
    last.  The phase grows strictly with the index, and the phases of two
    cards at mirrored places of the row are opposite up to 2^-54.  For five
    cards and the focus on card 2 the phases of cards 0, 1, 3, 4 grow
    strictly; those of cards 0 and 4 are opposite, those of cards 1 and 3
    are not. *)
Theorem C8_phase_of_unfocused_cards_on_doubles
    (i focus : nat) (cards : list CardType) (hover : list slot)
    (mouse : MouseRef) :
  let len := List.length cards in
  let p := Double.phase i focus len in
  (len <= cardCount_max)%nat -> (i < len)%nat -> (focus < len)%nat ->
  i <> focus ->
  (exists x, layout_x i focus cards hover mouse = Some x /\
     Qabs (Double.toQ (Double.position_x i focus len) - x)
       <= position_ulp) /\
  (layout_num len = 1%Z -> (p =? 0)%float = true) /\
  (layout_num len <> 1%Z ->
     (layout_num len - 1 <> 0)%Z /\
     (Double.num len - 1 =? 0)%float = false /\
     (-0.5 <=? p)%float = true /\ (p <=? 0.5)%float = true /\
     Qabs (Double.toQ p
           - (inject_Z (layout_j i focus) / inject_Z (layout_num len - 1)
              - 0.5)) <= phase_ulp /\
     (layout_j i focus = 0%Z -> (p =? -0.5)%float = true) /\
     (layout_j i focus = (layout_num len - 1)%Z ->
      (p =? 0.5)%float = true)) /\
  (forall i', (i' < len)%nat -> i' <> focus ->
     ((i < i')%nat -> (p <? Double.phase i' focus len)%float = true) /\
     ((layout_j i focus + layout_j i' focus = layout_num len - 1)%Z ->
      (abs (p + Double.phase i' focus len) <=? 0x1p-54)%float = true)) /\
  ((Double.phase 0 2 5 <? Double.phase 1 2 5)%float = true /\
   (Double.phase 1 2 5 <? Double.phase 3 2 5)%float = true /\
   (Double.phase 3 2 5 <? Double.phase 4 2 5)%float = true /\
   (Double.phase 0 2 5 =? - Double.phase 4 2 5)%float = true /\
   (Double.phase 1 2 5 =? - Double.phase 3 2 5)%float = false /\
   (abs (Double.phase 1 2 5 + Double.phase 3 2 5) <=? 0x1p-54)%float
     = true).
Proof.
  intros len p Hlen Hi Hf Hne.
  destruct (layout_row_facts len focus i Hlen Hi Hf Hne) as [Hc Hp].
  pose proof (layout_j_range i focus len Hi Hf Hne) as Hj.
  unfold phase_card_ok in Hc. fold p in Hc.
  apply andb_true_iff in Hc. destruct Hc as [Hx Hc].
  split; [|split; [|split; [|split]]].
  - exists (phase i focus len * (inject_Z (layout_num len) * 0.6)).
    split; [apply layout_x_value|].
    apply Qle_bool_iff. exact Hx.
  - intro E. rewrite E in Hc. exact Hc.
  - intro E. destruct (Z.eqb_spec (layout_num len) 1) as [E'|_];
      [contradiction|].
    repeat (apply andb_true_iff in Hc; destruct Hc as [Hc ?]).
    assert (Hph : phase i focus len =
                  inject_Z (layout_j i focus) / inject_Z (layout_num len - 1)
                  - 0.5).
    { unfold phase. destruct (Z.eqb_spec (layout_num len) 1) as [E'|_];
        [contradiction|reflexivity]. }
    rewrite <- Hph.
    split; [unfold layout_num in *; lia|].
    split; [apply negb_true_iff; assumption|].
    split; [assumption|]. split; [assumption|].
    split; [apply Qle_bool_iff; assumption|].
    split.
    + intro Ej. rewrite Ej in *. assumption.
    + intro Ej. rewrite Ej, Z.eqb_refl in *. assumption.
  - intros i' Hi' Hne'. specialize (Hp i' Hi' Hne').
    unfold phase_pair_ok in Hp. fold p in Hp.
    apply andb_true_iff in Hp. destruct Hp as [Hlt Hsym]. split.
    + intro L. apply Nat.ltb_lt in L. rewrite L in Hlt. simpl in Hlt.
      apply andb_true_iff in Hlt. exact (proj1 Hlt).
    + intro S. rewrite S, Z.eqb_refl in Hsym. exact Hsym.
  - vm_compute. repeat split; reflexivity.
Qed.

(** The statement of C8 at card 1 of five with the focus on card 2. *)
Lemma C8_phase_on_doubles_witness :
  (-0.5 <=? Double.phase 1 2 5)%float = true /\
  (Double.phase 1 2 5 <=? 0.5)%float = true /\
  (Double.phase 1 2 5 <? Double.phase 3 2 5)%float = true /\
  (abs (Double.phase 1 2 5 + Double.phase 3 2 5) <=? 0x1p-54)%float = true.
Proof.
  destruct (C8_phase_of_unfocused_cards_on_doubles
              1 2 (cards fiveCards) (hover (initialScene 5)) initialMouse)
    as (_ & _ & H & P & _);
    [vm_compute; lia | vm_compute; lia | vm_compute; lia | lia |].
  destruct H as (_ & _ & L & U & _); [vm_compute; congruence|].
  destruct (P 3%nat) as [A B]; [vm_compute; lia | lia |].
  exact (conj L (conj U (conj (A ltac:(lia)) (B eq_refl)))).
Defined.

(** ** Decimal numbers and the digit test *)

Lemma frac_cons (d : nat) (t : list nat) :
  frac (d :: t) == (inject_Z (Z.of_nat d) + frac t) * (1 # 10).
Proof. simpl. field. Qed.

Lemma frac_bounds (ds : list nat) :
  forallb digit_ok ds = true -> 0 <= frac ds /\ frac ds < 1.
Proof.
  induction ds as [|d t IH]; intro H.
  - simpl. split; lra.
  - simpl in H. apply andb_true_iff in H. destruct H as [Hd Ht].
    destruct (IH Ht) as [L U]. pose proof (frac_cons d t) as E.
    unfold digit_ok in Hd. apply Nat.ltb_lt in Hd.
    assert (H0 : inject_Z 0 <= inject_Z (Z.of_nat d))
      by (rewrite <- Zle_Qle; lia).
    assert (H9 : inject_Z (Z.of_nat d) <= inject_Z 9)
      by (rewrite <- Zle_Qle; lia).
    change (inject_Z 0) with 0 in H0. change (inject_Z 9) with 9 in H9.
    split; lra.
Qed.

Lemma pow10_pos (z : Z) : 0 < pow10 z.
Proof.
  destruct z as [|p|p]; unfold pow10.
  - lra.
  - change 0 with (inject_Z 0). rewrite <- Zlt_Qlt. apply Z.pow_pos_nonneg; lia.
  - apply Qinv_lt_0_compat. change 0 with (inject_Z 0). rewrite <- Zlt_Qlt.
    apply Z.pow_pos_nonneg; lia.
Qed.

Lemma pow10_ge (z : Z) : (1 <= z)%Z -> 10 <= pow10 z.
Proof.
  intro H. destruct z as [|p|p]; try lia. unfold pow10.
  change 10 with (inject_Z (10 ^ 1)). rewrite <- Zle_Qle.
  apply Z.pow_le_mono_r; lia.
Qed.

Lemma pow10_le (z : Z) : (z <= -1)%Z -> pow10 z <= 1 # 10.
Proof.
  intro H. destruct z as [|p|p]; try lia. unfold pow10.
  apply Qle_shift_inv_r.
  - change 0 with (inject_Z 0). rewrite <- Zlt_Qlt. apply Z.pow_pos_nonneg; lia.
  - assert (H10 : inject_Z (10 ^ 1) <= inject_Z (10 ^ Z.pos p))
      by (rewrite <- Zle_Qle; apply Z.pow_le_mono_r; lia).
    change (inject_Z (10 ^ 1)) with 10 in H10. lra.
Qed.

Lemma wf_decimal_digits (x : decimal) :
  wf_decimal x = true ->
  forallb digit_ok (digits x) = true /\
  (digits x = [] \/ exists d t, digits x = S d :: t).
Proof.
  unfold wf_decimal. intro H.
  apply andb_true_iff in H. destruct H as [H _].
  apply andb_true_iff in H. destruct H as [Hall Hhd].
  split; [exact Hall|].
  destruct (digits x) as [|d t]; [left; reflexivity|right].
  destruct d as [|d]; [discriminate|]. eauto.
Qed.

(** A well-formed number in [[1/10, 1)] is printed ["0.d1d2..."]: it is
    positive and its exponent is 0. *)
Lemma plain_fraction (x : decimal) :
  wf_decimal x = true -> 1 # 10 <= valueOf x -> valueOf x < 1 ->
  neg x = false /\ pt x = 0%Z /\ valueOf x == frac (digits x).
Proof.
  intros Hwf Hlo Hhi.
  destruct (wf_decimal_digits x Hwf) as [Hall Hd].
  destruct (frac_bounds _ Hall) as [F0 F1].
  pose proof (pow10_pos (pt x)) as Hp.
  unfold valueOf in *.
  destruct (neg x).
  - exfalso. nra.
  - split; [reflexivity|].
    assert (Hf : 1 # 10 <= frac (digits x)).
    { destruct Hd as [E|(d & t & E)]; rewrite E in *.
      - simpl in Hlo. lra.
      - pose proof (frac_cons (S d) t) as Ec.
        simpl in Hall. apply andb_true_iff in Hall. destruct Hall as [_ Ht].
        destruct (frac_bounds _ Ht) as [T0 _].
        assert (H1 : inject_Z 1 <= inject_Z (Z.of_nat (S d)))
          by (rewrite <- Zle_Qle; lia).
        change (inject_Z 1) with 1 in H1. lra. }
    assert (Hpt : pt x = 0%Z).
    { destruct (Z.lt_trichotomy (pt x) 0) as [Hn|[Hz|Hg]]; [|exact Hz|].
      - exfalso. pose proof (pow10_le (pt x)) as Hle.
        assert (pow10 (pt x) <= 1 # 10) by (apply Hle; lia). nra.
      - exfalso. pose proof (pow10_ge (pt x)) as Hge.
        assert (10 <= pow10 (pt x)) by (apply Hge; lia). nra. }
    split; [exact Hpt|]. rewrite Hpt. simpl. ring.
Qed.

(** The first digit of a digit string is the integer part of ten times its
    value. *)
Lemma frac_head (a : nat) (ds : list nat) :
  forallb digit_ok ds = true -> 0 < frac ds ->
  inject_Z (Z.of_nat a) <= 10 * frac ds ->
  10 * frac ds < inject_Z (Z.of_nat a) + 1 ->
  exists t, ds = a :: t /\ forallb digit_ok t = true /\
            frac t == 10 * frac ds - inject_Z (Z.of_nat a).
Proof.
  intros Hall Hpos Hlo Hhi.
  destruct ds as [|d t]; [simpl in Hpos; lra|].
  simpl in Hall. apply andb_true_iff in Hall. destruct Hall as [_ Ht].
  destruct (frac_bounds _ Ht) as [T0 T1].
  pose proof (frac_cons d t) as E.
  assert (Hda : d = a).
  { assert (L : inject_Z (Z.of_nat a) < inject_Z (Z.of_nat d + 1)).
    { rewrite inject_Z_plus. change (inject_Z 1) with 1. lra. }
    assert (U : inject_Z (Z.of_nat d) < inject_Z (Z.of_nat a + 1)).
    { rewrite inject_Z_plus. change (inject_Z 1) with 1. lra. }
    rewrite <- Zlt_Qlt in L, U. lia. }
  subst d. exists t. split; [reflexivity|]. split; [exact Ht|]. lra.
Qed.

#[local] Arguments digit_char : simpl never.

Lemma split_cons (sep : ascii) (s : string) :
  exists h t, split sep s = h :: t.
Proof.
  induction s as [|c s IH]; simpl; [eauto|].
  destruct (Ascii.eqb c sep); [eauto|].
  destruct IH as (h & t & E). rewrite E. eauto.
Qed.

Lemma digit_char_spec (d : nat) :
  digit_ok d = true ->
  Ascii.eqb (digit_char d) "." = false /\
  Number_of_char (Some (digit_char d)) = Num d.
Proof.
  unfold digit_ok. intro H. apply Nat.ltb_lt in H.
  do 10 (destruct d as [|d]; [split; reflexivity|]). lia.
Qed.

(** The fractional part of the string of a number with exponent 0 starts
    with its digits. *)
Lemma split_plain (b : bool) (ds : list nat) :
  ds <> [] ->
  exists h t, split "." (digit_string ds) = h :: t /\
    nth_error (split "." (toString (mkDec b ds 0))) 1 = Some h.
Proof.
  intro Hne. destruct (split_cons "." (digit_string ds)) as (h & t & E).
  exists h, t. split; [exact E|].
  unfold toString. simpl digits. simpl pt.
  destruct ds as [|d ds']; [contradiction|].
  unfold toString_pos.
  replace (Z.of_nat (List.length (d :: ds')) <=? 0)%Z with false
    by (symmetry; apply Z.leb_gt; simpl List.length; lia).
  cbn [andb]. cbv iota.
  change (0 <? 0)%Z with false. cbn [andb]. cbv iota.
  change (-6 <? 0)%Z with true. change (0 <=? 0)%Z with true.
  cbn [andb]. cbv iota.
  change (Z.to_nat (- 0)) with 0%nat. cbn [zeros append].
  cbn [neg]. set (X := digit_string (d :: ds')) in *. clearbody X.
  destruct b; simpl; rewrite E; reflexivity.
Qed.

Lemma nthDigit_first (b : bool) (d : nat) (t : list nat) :
  digit_ok d = true ->
  nthDigit 0 (mkDec b (d :: t) 0) = Ok (Num d).
Proof.
  intro Hd. destruct (digit_char_spec d Hd) as [Hdot Hnum].
  destruct (split_plain b (d :: t)) as (h & r & E & N); [discriminate|].
  unfold nthDigit. rewrite N.
  cbn [digit_string split] in E. rewrite Hdot in E.
  destruct (split "." (digit_string t)) as [|h' r']; inversion E; subst;
    cbn [get]; rewrite Hnum; reflexivity.
Qed.

Lemma nthDigit_second (b : bool) (d1 d2 : nat) (t : list nat) :
  digit_ok d1 = true -> digit_ok d2 = true ->
  nthDigit 1 (mkDec b (d1 :: d2 :: t) 0) = Ok (Num d2).
Proof.
  intros H1 H2.
  destruct (digit_char_spec d1 H1) as [Hdot1 _].
  destruct (digit_char_spec d2 H2) as [Hdot2 Hnum2].
  destruct (split_plain b (d1 :: d2 :: t)) as (h & r & E & N); [discriminate|].
  unfold nthDigit. rewrite N.
  cbn [digit_string split] in E. rewrite Hdot1, Hdot2 in E.
  destruct (split "." (digit_string t)) as [|h' r']; inversion E; subst;
    cbn [get]; rewrite Hnum2; reflexivity.
Qed.

(** One fractional digit only: [str[1]] is [undefined], [Number] of it
    [NaN]; nothing is thrown. *)
Lemma nthDigit_second_missing (b : bool) (d : nat) :
  digit_ok d = true ->
  nthDigit 1 (mkDec b [d] 0) = Ok NaN.
Proof.
  intro H. destruct (digit_char_spec d H) as [Hdot _].
  destruct (split_plain b [d]) as (h & r & E & N); [discriminate|].
  unfold nthDigit. rewrite N.
  cbn [digit_string split] in E. rewrite Hdot in E.
  inversion E; subst. reflexivity.
Qed.

(** The digits of a number in [[0.9, 1)]: the first is 9 and the second is
    the integer part of [100 * x - 90]. *)
Lemma digits_of_top_decile (x : decimal) (a : nat) :
  wf_decimal x = true ->
  0.9 < valueOf x -> valueOf x < 1 ->
  inject_Z (Z.of_nat a) <= 100 * valueOf x - 90 ->
  100 * valueOf x - 90 < inject_Z (Z.of_nat a) + 1 ->
  exists t, x = mkDec false (9%nat :: a :: t) 0 /\ (a < 10)%nat.
Proof.
  intros Hwf Hlo Hhi Ha1 Ha2.
  destruct (plain_fraction x Hwf) as (Hneg & Hpt & Hv); [lra|lra|].
  destruct (wf_decimal_digits x Hwf) as [Hall _].
  rewrite Hv in *.
  destruct (frac_head 9 (digits x) Hall) as (t1 & E1 & Hall1 & F1).
  { lra. } { change (inject_Z (Z.of_nat 9)) with 9. lra. }
  { change (inject_Z (Z.of_nat 9)) with 9. lra. }
  change (inject_Z (Z.of_nat 9)) with 9 in F1.
  assert (Hpos : 0 < frac t1) by lra.
  destruct (frac_head a t1 Hall1 Hpos) as (t2 & E2 & Hall2 & _); [lra|lra|].
  exists t2. split.
  - destruct x as [n ds p]. simpl in *. subst. reflexivity.
  - subst t1. simpl in Hall1. apply andb_true_iff in Hall1.
    destruct Hall1 as [Hd _]. unfold digit_ok in Hd.
    apply Nat.ltb_lt in Hd. exact Hd.
Qed.

(** Any number with exponent 0 has a fractional part: no digit test on it
    throws. *)
Lemma nthDigit_plain_defined (ntn : nat) (b : bool) (ds : list nat) :
  ds <> [] -> exists v, nthDigit ntn (mkDec b ds 0) = Ok v.
Proof.
  intro H. destruct (split_plain b ds H) as (h & t & _ & N).
  unfold nthDigit. rewrite N. eauto.
Qed.

Lemma second_digit_exists (x : decimal) :
  wf_decimal x = true -> 0.9 < valueOf x -> valueOf x < 1 ->
  exists a t, x = mkDec false (9%nat :: a :: t) 0 /\ (a < 10)%nat /\
              inject_Z (Z.of_nat a) <= 100 * valueOf x - 90 /\
              100 * valueOf x - 90 < inject_Z (Z.of_nat a) + 1.
Proof.
  intros Hwf Hlo Hhi.
  set (q := 100 * valueOf x - 90).
  pose proof (Qfloor_le q) as Fl. pose proof (Qlt_floor q) as Fu.
  rewrite inject_Z_plus in Fu. change (inject_Z 1) with 1 in Fu.
  assert (Hnn : (0 <= Qfloor q)%Z).
  { assert (H : inject_Z 0 < inject_Z (Qfloor q + 1)).
    { rewrite inject_Z_plus. change (inject_Z 0) with 0.
      change (inject_Z 1) with 1. unfold q in *. lra. }
    rewrite <- Zlt_Qlt in H. lia. }
  assert (Ea : Z.of_nat (Z.to_nat (Qfloor q)) = Qfloor q)
    by (apply Z2Nat.id; exact Hnn).
  destruct (digits_of_top_decile x (Z.to_nat (Qfloor q)) Hwf Hlo Hhi)
    as (t & E & Hlt).
  { rewrite Ea. exact Fl. }
  { rewrite Ea. exact Fu. }
  exists (Z.to_nat (Qfloor q)), t. rewrite Ea. auto.
Qed.

Lemma nat_of_Q_bounds (a b : nat) (q : Q) :
  inject_Z (Z.of_nat a) <= q -> q < inject_Z (Z.of_nat a) + 1 ->
  inject_Z (Z.of_nat b) <= q -> (b <= a)%nat.
Proof.
  intros H1 H2 H3.
  assert (H : inject_Z (Z.of_nat b) < inject_Z (Z.of_nat a + 1)).
  { rewrite inject_Z_plus. change (inject_Z 1) with 1. lra. }
  rewrite <- Zlt_Qlt in H. lia.
Qed.

Lemma split_digit_prefix (ds : list nat) (s h : string) (t : list string) :
  forallb digit_ok ds = true -> split "." s = h :: t ->
  split "." (digit_string ds ++ s) = (digit_string ds ++ h)%string :: t.
Proof.
  intros Hall Hs. induction ds as [|d ds IH]; [exact Hs|].
  simpl in Hall. apply andb_true_iff in Hall. destruct Hall as [Hd Hall].
  destruct (digit_char_spec d Hd) as [Hdot _].
  cbn [digit_string append split]. rewrite Hdot, (IH Hall). reflexivity.
Qed.

Lemma split_zeros_prefix (n : nat) (s h : string) (t : list string) :
  split "." s = h :: t ->
  split "." (zeros n ++ s) = (zeros n ++ h)%string :: t.
Proof.
  intro Hs. induction n as [|n IH]; [exact Hs|].
  cbn [zeros append split]. rewrite IH. reflexivity.
Qed.

Lemma split_uint (d : Decimal.uint) :
  split "." (NilEmpty.string_of_uint d) = [NilEmpty.string_of_uint d].
Proof. induction d; simpl; try rewrite IHd; reflexivity. Qed.

Lemma append_empty_r (s : string) : (s ++ "")%string = s.
Proof. induction s as [|c s IH]; simpl; [|rewrite IH]; reflexivity. Qed.

Lemma get_zeros_app (z : nat) (s : string) :
  forall n, get n (zeros z ++ s) =
            if Nat.ltb n z then Some "0"%char else get (n - z) s.
Proof.
  induction z as [|z IH]; intro n.
  - simpl. rewrite Nat.sub_0_r. reflexivity.
  - destruct n as [|n]; [reflexivity|]. cbn [zeros append get].
    rewrite IH. reflexivity.
Qed.

Lemma get_digit_app (ds : list nat) (s : string) :
  forall n, get n (digit_string ds ++ s) =
            match nth_error ds n with
            | Some d => Some (digit_char d)
            | None => get (n - List.length ds) s
            end.
Proof.
  induction ds as [|d ds IH]; intro n.
  - simpl. rewrite Nat.sub_0_r. destruct n; reflexivity.
  - destruct n as [|n]; [reflexivity|]. cbn [digit_string append get].
    rewrite IH. reflexivity.
Qed.

Lemma Number_of_digit (ds : list nat) (n : nat) :
  forallb digit_ok ds = true ->
  Number_of_char (match nth_error ds n with
                  | Some d => Some (digit_char d)
                  | None => None
                  end) =
  match nth_error ds n with
  | Some d => Num d
  | None => NaN
  end.
Proof.
  intro Hall. destruct (nth_error ds n) as [d|] eqn:E; [|reflexivity].
  apply nth_error_In in E. rewrite forallb_forall in Hall.
  destruct (digit_char_spec d (Hall d E)) as [_ H]. exact H.
Qed.

Lemma split_signed (b : bool) (s h : string) (t : list string) :
  split "." s = h :: t ->
  split "." ((if b then "-" else EmptyString) ++ s) =
  ((if b then "-" else EmptyString) ++ h)%string :: t.
Proof. intro Hs. destruct b; simpl; rewrite Hs; reflexivity. Qed.

(** The string of a number from 10^-6 up to 1 (exponent [-6 < ex <= 0]). *)
Lemma toString_fraction (b : bool) (ds : list nat) (ex : Z) :
  ds <> [] -> (-6 < ex <= 0)%Z ->
  toString (mkDec b ds ex) =
  ((if b then "-" else EmptyString) ++
   String "0" (String "." (zeros (Z.to_nat (- ex)) ++ digit_string ds)))%string.
Proof.
  intros Hne Hpt. unfold toString. cbn [digits neg pt].
  destruct ds as [|d ds']; [contradiction|].
  unfold toString_pos.
  replace (Z.of_nat (List.length (d :: ds')) <=? ex)%Z with false
    by (symmetry; apply Z.leb_gt; simpl List.length; lia).
  replace (0 <? ex)%Z with false by (symmetry; apply Z.ltb_ge; lia).
  replace (-6 <? ex)%Z with true by (symmetry; apply Z.ltb_lt; lia).
  replace (ex <=? 0)%Z with true by (symmetry; apply Z.leb_le; lia).
  reflexivity.
Qed.

Lemma pow10_tiny (z : Z) : (z <= -6)%Z -> pow10 z <= 1 # 1000000.
Proof.
  intro H. destruct z as [|p|p]; try lia. unfold pow10.
  apply Qle_shift_inv_r.
  - change 0 with (inject_Z 0). rewrite <- Zlt_Qlt. apply Z.pow_pos_nonneg; lia.
  - assert (H10 : inject_Z (10 ^ 6) <= inject_Z (10 ^ Z.pos p))
      by (rewrite <- Zle_Qle; apply Z.pow_le_mono_r; lia).
    change (inject_Z (10 ^ 6)) with 1000000 in H10. lra.
Qed.

(** A well-formed number in [[10^-6, 1)] is printed in plain notation,
    ["0."], zeros, then its digits: it is positive and its exponent is
    between -5 and 0. *)
Lemma plain_notation (x : decimal) :
  wf_decimal x = true -> 1 # 1000000 <= valueOf x -> valueOf x < 1 ->
  neg x = false /\ (-6 < pt x <= 0)%Z /\
  exists d t, digits x = S d :: t.
Proof.
  intros Hwf Hlo Hhi.
  destruct (wf_decimal_digits x Hwf) as [Hall Hd].
  destruct (frac_bounds _ Hall) as [F0 F1].
  pose proof (pow10_pos (pt x)) as Hp.
  unfold valueOf in *.
  destruct (neg x).
  - exfalso. nra.
  - split; [reflexivity|].
    destruct Hd as [E|(d & t & E)].
    { exfalso. rewrite E in Hlo. simpl in Hlo. lra. }
    assert (Hf : 1 # 10 <= frac (digits x)).
    { rewrite E in *. pose proof (frac_cons (S d) t) as Ec.
      simpl in Hall. apply andb_true_iff in Hall. destruct Hall as [_ Ht].
      destruct (frac_bounds _ Ht) as [T0 _].
      assert (H1 : inject_Z 1 <= inject_Z (Z.of_nat (S d)))
        by (rewrite <- Zle_Qle; lia).
      change (inject_Z 1) with 1 in H1. lra. }
    split; [|exists d, t; exact E].
    destruct (Z_le_gt_dec (pt x) (-6)) as [Hn|Hn].
    { exfalso. pose proof (pow10_tiny (pt x) Hn). nra. }
    destruct (Z_le_gt_dec (pt x) 0) as [Hg|Hg]; [lia|].
    exfalso. assert (10 <= pow10 (pt x)) by (apply pow10_ge; lia). nra.
Qed.

(** Below 1/10 the first digit after the point is a zero. *)
Lemma nthDigit_leading_zero (b : bool) (ds : list nat) (ex : Z) :
  forallb digit_ok ds = true -> ds <> [] -> (-6 < ex < 0)%Z ->
  nthDigit 0 (mkDec b ds ex) = Ok (Num 0).
Proof.
  intros Hall Hne Hpt. unfold nthDigit.
  rewrite (toString_fraction b ds ex Hne) by lia.
  set (z := Z.to_nat (- ex)).
  assert (Hs : split "." (String "0" (String "." (zeros z ++ digit_string ds)))
               = ["0"%string; (zeros z ++ digit_string ds)%string]).
  { cbn [split]. change (Ascii.eqb "0" ".") with false.
    change (Ascii.eqb "." ".") with true. cbv iota.
    rewrite (split_zeros_prefix z (digit_string ds) (digit_string ds) []).
    - reflexivity.
    - rewrite <- (append_empty_r (digit_string ds)) at 1.
      rewrite (split_digit_prefix ds "" "" [] Hall eq_refl).
      rewrite append_empty_r. reflexivity. }
  rewrite (split_signed b _ _ _ Hs). cbn [nth_error].
  rewrite get_zeros_app.
  replace (Nat.ltb 0 z) with true
    by (symmetry; apply Nat.ltb_lt; unfold z; lia).
  reflexivity.
Qed.

(** A number printed in plain notation whose first two digits after the
    point are 9 and 1 is in [[0.91, 0.92)]. *)
Lemma plain_digits_9_1 (x : decimal) :
  wf_decimal x = true -> 1 # 1000000 <= valueOf x -> valueOf x < 1 ->
  nthDigit 0 x = Ok (Num 9) -> nthDigit 1 x = Ok (Num 1) ->
  0.91 <= valueOf x /\ valueOf x < 0.92.
Proof.
  intros Hwf Hlo Hhi H0 H1.
  destruct (plain_notation x Hwf Hlo Hhi) as (Hneg & Hpt & d & t & E).
  destruct (wf_decimal_digits x Hwf) as [Hall _].
  destruct x as [n ds ex]. cbn [neg pt digits] in *. subst n ds.
  destruct (Z.eq_dec ex 0) as [Hz|Hnz].
  - subst ex. clear Hlo Hhi.
    simpl in Hall. apply andb_true_iff in Hall. destruct Hall as [Hd Ht].
    rewrite (nthDigit_first false (S d) t Hd) in H0.
    assert (Ed : S d = 9%nat) by congruence.
    rewrite Ed in *. clear Ed H0.
    destruct t as [|d2 t'].
    + rewrite (nthDigit_second_missing false 9 Hd) in H1. discriminate.
    + simpl in Ht. apply andb_true_iff in Ht. destruct Ht as [Hd2 Ht'].
      rewrite (nthDigit_second false 9 d2 t' Hd Hd2) in H1.
      assert (Ed : d2 = 1%nat) by congruence. subst d2.
      destruct (frac_bounds _ Ht') as [T0 T1].
      unfold valueOf. cbn [neg pt digits pow10].
      pose proof (frac_cons 9 (1%nat :: t')) as E1.
      pose proof (frac_cons 1 t') as E2.
      change (inject_Z (Z.of_nat 9)) with 9 in E1.
      change (inject_Z (Z.of_nat 1)) with 1 in E2.
      split; lra.
  - exfalso.
    rewrite (nthDigit_leading_zero false (S d :: t) ex Hall) in H0;
      [discriminate | discriminate | lia].
Qed.

(** ** The flip trigger *)

Lemma is_num_true (n : nat) (v : numval) : is_num n v = true <-> v = Num n.
Proof.
  destruct v as [m|]; simpl.
  - rewrite Nat.eqb_eq. split; congruence.
  - split; discriminate.
Qed.

(** The trigger answers yes exactly on these five tests. *)
Lemma flipTrigger_true_iff (e : Q) (c p : decimal) :
  flipTrigger e c p = Ok true <->
  5 < e /\ 0 < valueOf c /\
  nthDigit 0 c = Ok (Num 9) /\ nthDigit 1 c = Ok (Num 1) /\
  nthDigit 1 p = Ok (Num 0).
Proof.
  unfold flipTrigger. split.
  - intro H.
    destruct (Qgtb e 5) eqn:E1; [|discriminate].
    destruct (Qgtb (valueOf c) 0) eqn:E2; [|discriminate].
    apply Qgtb_true in E1, E2. simpl in H.
    destruct (nthDigit 0 c) as [d0|] eqn:D0; [|discriminate]. simpl in H.
    destruct (is_num 9 d0) eqn:I0; [|discriminate].
    apply is_num_true in I0. subst d0.
    destruct (nthDigit 1 c) as [d1|] eqn:D1; [|discriminate]. simpl in H.
    destruct (is_num 1 d1) eqn:I1; [|discriminate].
    apply is_num_true in I1. subst d1.
    destruct (nthDigit 1 p) as [p1|] eqn:P1; [|discriminate]. simpl in H.
    inversion H as [I2]. apply is_num_true in I2. subst p1. auto.
  - intros (E1 & E2 & D0 & D1 & P1).
    apply Qgtb_true in E1, E2. rewrite E1, E2, D0. simpl.
    rewrite D1. simpl. rewrite P1. reflexivity.
Qed.

(** A step up from [prevCycle] in (0.90, 0.91) to [cycle] in [0.91, 0.92). *)
Lemma flipTrigger_fires (e : Q) (c p : decimal) :
  wf_decimal c = true -> wf_decimal p = true -> 5 < e ->
  0.91 <= valueOf c -> valueOf c < 0.92 ->
  0.90 < valueOf p -> valueOf p < 0.91 ->
  flipTrigger e c p = Ok true.
Proof.
  intros Wc Wp He C1 C2 P1 P2.
  destruct (digits_of_top_decile c 1 Wc) as (tc & Ec & _);
    [lra | lra | change (inject_Z (Z.of_nat 1)) with 1; lra
     | change (inject_Z (Z.of_nat 1)) with 1; lra |].
  destruct (digits_of_top_decile p 0 Wp) as (tp & Ep & _);
    [lra | lra | change (inject_Z (Z.of_nat 0)) with 0; lra
     | change (inject_Z (Z.of_nat 0)) with 0; lra |].
  apply flipTrigger_true_iff.
  split; [exact He|]. split; [lra|].
  rewrite Ec, Ep.
  rewrite nthDigit_first, !nthDigit_second by reflexivity. auto.
Qed.

(** A frame that lands at [cycle] in [0.92, 1): the second digit is not 1. *)
Lemma flipTrigger_skipped (e : Q) (c p : decimal) :
  wf_decimal c = true -> 0.92 <= valueOf c -> valueOf c < 1 ->
  flipTrigger e c p = Ok false.
Proof.
  intros Wc C1 C2.
  destruct (second_digit_exists c Wc) as (a & t & E & Ha & L & U);
    [lra | lra |].
  assert (H2 : (2 <= a)%nat).
  { apply (nat_of_Q_bounds a 2 (100 * valueOf c - 90) L U).
    change (inject_Z (Z.of_nat 2)) with 2. lra. }
  unfold flipTrigger.
  destruct (Qgtb e 5 && Qgtb (valueOf c) 0); [|reflexivity].
  rewrite E, nthDigit_first by reflexivity.
  cbn [bind]. change (is_num 9 (Num 9)) with true. cbv iota.
  rewrite nthDigit_second;
    [| reflexivity | unfold digit_ok; apply Nat.ltb_lt; exact Ha].
  cbn [bind is_num]. destruct (Nat.eqb_spec a 1); [lia|reflexivity].
Qed.

(** A frame whose [prevCycle] is in [0.91, 1): its second digit is not 0. *)
Lemma flipTrigger_from_above (e : Q) (c p : decimal) :
  wf_decimal p = true -> 0.91 <= valueOf p -> valueOf p < 1 ->
  flipTrigger e c p <> Ok true.
Proof.
  intros Wp P1 P2 H. apply flipTrigger_true_iff in H.
  destruct H as (_ & _ & _ & _ & D).
  destruct (second_digit_exists p Wp) as (a & t & E & Ha & L & U);
    [lra | lra |].
  assert (H1 : (1 <= a)%nat).
  { apply (nat_of_Q_bounds a 1 (100 * valueOf p - 90) L U).
    change (inject_Z (Z.of_nat 1)) with 1. lra. }
  rewrite E, nthDigit_second in D;
    [| reflexivity | unfold digit_ok; apply Nat.ltb_lt; exact Ha].
  inversion D. lia.
Qed.

(** The cycle value of a firing frame cannot be the previous value of
    another firing frame. *)
Lemma flipTrigger_not_twice (e e' : Q) (c p c' : decimal) :
  flipTrigger e c p = Ok true -> flipTrigger e' c' c <> Ok true.
Proof.
  intros H H'. apply flipTrigger_true_iff in H, H'.
  destruct H as (_ & _ & _ & D1 & _). destruct H' as (_ & _ & _ & _ & D0).
  rewrite D1 in D0. discriminate.
Qed.

(** ** The frame callback *)

Section FrameFacts.

Variable Math_sin : Q -> decimal.

(** A frame stopped by the tick gate updates the clock and the mouse
    position and nothing else: no spring is started, nothing is flipped. *)
Lemma useFrame_gated (state : RootState) (s : Scene) :
  tickGate (frameClock (getElapsedTime state) s) = false ->
  useFrame Math_sin state s =
  returns (with_mouse (with_clock s (frameClock (getElapsedTime state) s))
                      (frameMouse state s)).
Proof. intro H. unfold useFrame. rewrite H. reflexivity. Qed.

Lemma useFrame_paused (state : RootState) (s : Scene) :
  let c := frameClock (getElapsedTime state) s in
  tickGate c = true -> paused s = true ->
  flips (useFrame Math_sin state s) = [] /\
  thrown (useFrame Math_sin state s) = None /\
  store (after (useFrame Math_sin state s)) = store s /\
  clock (after (useFrame Math_sin state s)) =
    mkClock (tick c) (lastTick c) (tps c) (elapsed c) (prevElapsed c)
            (animOffset c + (elapsed c - prevElapsed c)).
Proof.
  intros c Hg Hp. unfold useFrame. fold c. rewrite Hg, Hp. simpl. auto.
Qed.

(** The frame calls [flip] when it reaches the idle-cycle animator and the
    trigger answers yes, and then with the focus. *)
Lemma useFrame_flips (state : RootState) (s : Scene) :
  let c := frameClock (getElapsedTime state) s in
  flips (useFrame Math_sin state s) =
  if tickGate c && negb (paused s) then
    match flipTrigger (elapsed c) (cycleAt Math_sin c)
                      (prevCycleAt Math_sin c) with
    | Ok true => [focus (store s)]
    | _ => []
    end
  else [].
Proof.
  intro c. unfold useFrame. fold c.
  destruct (tickGate c); [|reflexivity].
  destruct (paused s); [reflexivity|]. simpl.
  destruct (flipTrigger (elapsed c) (cycleAt Math_sin c)
              (prevCycleAt Math_sin c)) as [[|]|e]; try reflexivity.
  destruct (flip (focus (store s)) (store s)); reflexivity.
Qed.

(** What a frame leaves of the scene besides the store and the timers. *)
Lemma useFrame_keeps (state : RootState) (s : Scene) :
  hover (after (useFrame Math_sin state s)) = hover s /\
  drag (after (useFrame Math_sin state s)) = drag s /\
  tps_control (after (useFrame Math_sin state s)) = tps_control s.
Proof.
  unfold useFrame.
  destruct (tickGate _); [|simpl; auto].
  destruct (paused s); [simpl; auto|]. simpl.
  destruct (flipTrigger _ _ _) as [[|]|e]; simpl; auto.
  destruct (flip (focus (store s)) (store s)); simpl; auto.
Qed.

(** The clock a frame leaves when the animator plays or the gate stops
    it. *)
Lemma useFrame_clock_unpaused (state : RootState) (s : Scene) :
  tickGate (frameClock (getElapsedTime state) s) && paused s = false ->
  clock (after (useFrame Math_sin state s)) =
  frameClock (getElapsedTime state) s.
Proof.
  intro H. unfold useFrame.
  destruct (tickGate _); [|reflexivity]. simpl in H. rewrite H. simpl.
  destruct (flipTrigger _ _ _) as [[|]|e]; simpl; auto.
  destruct (flip (focus (store s)) (store s)); simpl; auto.
Qed.

Lemma flip_focus (i : nat) (st : Store) (r : Store * list Timer) :
  flip i st = Ok r -> focus (fst r) = focus st.
Proof.
  unfold flip, bump. intro H.
  destruct (assign (set_lift 4.5) i (cards st)) as [cs|]; [|discriminate].
  simpl in H.
  destruct (assign toggle_flip i cs) as [cs'|]; [|discriminate].
  inversion H. reflexivity.
Qed.

Lemma useFrame_focus (state : RootState) (s : Scene) :
  focus (store (after (useFrame Math_sin state s))) = focus (store s).
Proof.
  unfold useFrame.
  destruct (tickGate _); [|reflexivity].
  destruct (paused s); [reflexivity|]. simpl.
  destruct (flipTrigger _ _ _) as [[|]|e]; simpl; auto.
  destruct (flip (focus (store s)) (store s)) as [r|] eqn:E; simpl; auto.
  apply flip_focus in E. exact E.
Qed.

Lemma useFrame_paused_after (state : RootState) (s : Scene) :
  paused (after (useFrame Math_sin state s)) = paused s.
Proof.
  unfold paused. destruct (useFrame_keeps state s) as (Hh & Hd & _).
  rewrite Hh, Hd, useFrame_focus. reflexivity.
Qed.

(** The gate is open on every frame from [1 / tps] after [lastTick] up to
    [tps] seconds after it, however close the frames are. *)
Lemma tickGate_open (t : Q) (s : Scene) :
  0 < tps_control s ->
  1 / tps_control s <= t - lastTick (clock s) ->
  t - lastTick (clock s) <= tps_control s ->
  tickGate (frameClock t s) = true.
Proof.
  intros Hpos Hlo Hhi. unfold frameClock. simpl.
  apply Qgtb_false in Hhi. rewrite Hhi.
  unfold tickGate. simpl.
  destruct (Qeq_bool (tps_control s) 0) eqn:E.
  - apply Qeq_bool_iff in E. lra.
  - apply Qgeb_true. exact Hlo.
Qed.

End FrameFacts.

(** C2. Spring updates should be limited to the tick rate: two frames that
    pass the gate at least [1 / tps] apart.  [lastTick] only moves when
    more than [tps] seconds (not [1 / tps]) have passed since it, so from
    1/30 s to 30 s after it every frame passes.  Four cards, thirty ticks
    per second, frames at 1 s and 1.001 s: both pass the gate and start
    springs, one millisecond apart; a frame at 0.01 s is stopped. *)
Theorem C2_frames_a_millisecond_apart_both_pass :
  let s0 := initialScene 4 in
  let o1 := useFrame sin_ref (frameAt 1) s0 in
  let o2 := useFrame sin_ref (frameAt 1.001) (after o1) in
  tps (clock (after o1)) = 30 /\
  tickGate (frameClock 1 s0) = true /\
  tickGate (frameClock 1.001 (after o1)) = true /\
  List.length (calls o1) = 2%nat /\
  List.length (calls o2) = 2%nat /\
  1.001 - 1 < 1 / 30 /\
  tickGate (frameClock 0.01 s0) = false /\
  calls (useFrame sin_ref (frameAt 0.01) s0) = [].
Proof. vm_compute. repeat split; reflexivity. Qed.

(** C5. The digit test should never throw on a positive [cycle].
    [Math.sin] returns exactly 1 next to the top of the cycle; its string
    is ["1"], [split(".")[1]] is [undefined], and indexing it throws: the
    frame at 23.79994434 s ends in a [TypeError].  So does the test on a
    one-digit number in exponent notation (["9e-7"]).  With one fractional
    digit (["0.9"]) the second digit is [NaN] and nothing is thrown. *)
Theorem C5_digit_test_throws_without_fraction :
  toString one = "1"%string /\
  nthDigit 0 one = Err TypeError /\
  toString dec_9e_7 = "9e-7"%string /\
  nthDigit 0 dec_9e_7 = Err TypeError /\
  nthDigit 1 dec_0_9 = Ok NaN /\
  cycleAt sin_ref (frameClock 23.79994434 (initialScene 4)) = one /\
  flipTrigger 23.79994434 one (prevCycleAt sin_ref
                                 (frameClock 23.79994434 (initialScene 4)))
    = Err TypeError /\
  thrown (useFrame sin_ref (frameAt 23.79994434) (initialScene 4))
    = Some TypeError.
Proof. vm_compute. repeat split; reflexivity. Qed.

(** ** The idle-cycle animator and the flip trigger, frame by frame *)

(** C3 (as stated, on a run with a long frame).  Frames at 22.4 s and
    22.52 s with the focused card idle: the cycle goes from 0.895 to 0.912,
    up across 0.91, and the trigger does not fire (the second digit of the
    previous value is 9, not 0); it does not fire on the next frames
    either, whose previous value is already past 0.91. *)
Lemma C3_crossing_without_flip :
  let o := useFrame sin_ref (frameAt 22.52) lateScene in
  tickGate (frameClock 22.52 lateScene) = true /\
  paused lateScene = false /\
  toString (prevCycleAt sin_ref (frameClock 22.52 lateScene))
    = "0.8951709961079304"%string /\
  toString (cycleAt sin_ref (frameClock 22.52 lateScene))
    = "0.9121152154805613"%string /\
  flips o = [] /\ thrown o = None /\
  flips (useFrame sin_ref (frameAt 22.55) (after o)) = [] /\
  toString (cycleAt sin_ref (frameClock 22.60
              (frames sin_ref [frameAt 22.55; frameAt 22.58] (after o))))
    = "0.9226183789298529"%string /\
  flips (useFrame sin_ref (frameAt 22.60)
           (frames sin_ref [frameAt 22.55; frameAt 22.58] (after o))) = [].
Proof. vm_compute. repeat split; reflexivity. Qed.

(** C3 (amended).  On a frame that reaches the idle-cycle animator with
    [elapsed > 5] the trigger calls [flip(focus)] at most once; when
    [cycle] is a number printed in plain notation (from 10^-6 up to 1) it
    does so only with [cycle] in [0.91, 0.92).  A step up from [prevCycle]
    in (0.90, 0.91) to [cycle] in [0.91, 0.92) fires once; the frame after
    a firing frame does not fire; a frame whose [prevCycle] is in
    [0.91, 1) does not fire; and a frame that lands at [cycle] in
    [0.92, 1) does not fire, whatever it crossed. *)
Theorem C3_flip_once_per_decile_step
    (Math_sin : Q -> decimal) (state : RootState) (s : Scene) :
  let c := frameClock (getElapsedTime state) s in
  let cycle := cycleAt Math_sin c in
  let prevCycle := prevCycleAt Math_sin c in
  let o := useFrame Math_sin state s in
  tickGate c = true -> paused s = false ->
  wf_decimal cycle = true -> wf_decimal prevCycle = true ->
  5 < elapsed c ->
  (flips o = [] \/ flips o = [focus (store s)]) /\
  (1 # 1000000 <= valueOf cycle -> valueOf cycle < 1 ->
   flips o = [focus (store s)] ->
   0.91 <= valueOf cycle /\ valueOf cycle < 0.92) /\
  (0.91 <= valueOf cycle -> valueOf cycle < 0.92 ->
   0.90 < valueOf prevCycle -> valueOf prevCycle < 0.91 ->
   flips o = [focus (store s)]) /\
  (flips o = [focus (store s)] ->
   forall state', flips (useFrame Math_sin state' (after o)) = []) /\
  (0.91 <= valueOf prevCycle -> valueOf prevCycle < 1 -> flips o = []) /\
  (0.92 <= valueOf cycle -> valueOf cycle < 1 -> flips o = []).
Proof.
  intros c cycle prevCycle o Hg Hp Wc Wp He.
  assert (Hf : flips o =
               match flipTrigger (elapsed c) cycle prevCycle with
               | Ok true => [focus (store s)]
               | _ => []
               end).
  { unfold o. rewrite useFrame_flips. fold c. rewrite Hg, Hp. reflexivity. }
  assert (Hiff : flips o = [focus (store s)] <->
                 flipTrigger (elapsed c) cycle prevCycle = Ok true).
  { rewrite Hf.
    destruct (flipTrigger (elapsed c) cycle prevCycle) as [[|]|e];
      split; intro H; try reflexivity; discriminate. }
  assert (Hno : flipTrigger (elapsed c) cycle prevCycle <> Ok true ->
                flips o = []).
  { rewrite Hf.
    destruct (flipTrigger (elapsed c) cycle prevCycle) as [[|]|e];
      intro H; try reflexivity. contradiction. }
  split; [|split; [|split; [|split; [|split]]]].
  - rewrite Hf.
    destruct (flipTrigger (elapsed c) cycle prevCycle) as [[|]|e]; auto.
  - intros C1 C2 Hfire. apply Hiff in Hfire.
    apply flipTrigger_true_iff in Hfire.
    destruct Hfire as (_ & _ & D0 & D1 & _).
    apply plain_digits_9_1; assumption.
  - intros C1 C2 P1 P2. apply Hiff. apply flipTrigger_fires; assumption.
  - intros Hfire state'. apply Hiff in Hfire.
    rewrite useFrame_flips.
    destruct (tickGate (frameClock (getElapsedTime state') (after o)));
      [|reflexivity].
    destruct (paused (after o)); [reflexivity|]. simpl.
    assert (Hc : clock (after o) = c).
    { unfold o. apply useFrame_clock_unpaused. rewrite Hp.
      apply andb_false_r. }
    assert (Hprev : prevCycleAt Math_sin
                      (frameClock (getElapsedTime state') (after o)) = cycle).
    { unfold prevCycleAt, frameClock. rewrite Hc.
      destruct (Qgtb _ _); reflexivity. }
    rewrite Hprev.
    pose proof (flipTrigger_not_twice (elapsed c)
                  (elapsed (frameClock (getElapsedTime state') (after o)))
                  cycle prevCycle
                  (cycleAt Math_sin
                     (frameClock (getElapsedTime state') (after o)))
                  Hfire) as Hnt.
    destruct (flipTrigger _ _ cycle) as [[|]|e]; try reflexivity.
    contradiction.
  - intros P1 P2. apply Hno. apply flipTrigger_from_above; assumption.
  - intros C1 C2. apply Hno. rewrite flipTrigger_skipped by assumption.
    discriminate.
Qed.

(** The statement of C3 on the frames at 22.50 s and 22.52 s: the cycle
    steps from 0.909 to 0.912 and the trigger fires. *)
Lemma C3_flip_once_witness :
  let o := useFrame sin_ref (frameAt 22.52) risingScene in
  flips o = [focus (store risingScene)] /\
  forall state', flips (useFrame sin_ref state' (after o)) = [].
Proof.
  assert (Hg : tickGate (frameClock 22.52 risingScene) = true)
    by (vm_compute; reflexivity).
  assert (Hp : paused risingScene = false) by (vm_compute; reflexivity).
  assert (Wc : wf_decimal (cycleAt sin_ref (frameClock 22.52 risingScene))
               = true) by (vm_compute; reflexivity).
  assert (Wp : wf_decimal (prevCycleAt sin_ref (frameClock 22.52 risingScene))
               = true) by (vm_compute; reflexivity).
  assert (He : 5 < elapsed (frameClock 22.52 risingScene))
    by (vm_compute; reflexivity).
  destruct (C3_flip_once_per_decile_step sin_ref (frameAt 22.52) risingScene
              Hg Hp Wc Wp He) as (_ & _ & Hfire & Hnext & _).
  assert (F : flips (useFrame sin_ref (frameAt 22.52) risingScene)
              = [focus (store risingScene)]).
  { apply Hfire; vm_compute; try reflexivity; discriminate. }
  split; [exact F|]. exact (Hnext F).
Defined.

(** ** Dragging *)

Lemma start_single_from (k : nat) (p : SpringProps)
    (fn : nat -> option SpringProps) :
  (forall i, fn i = if Nat.eqb i k then Some p else None) ->
  forall n a,
    flat_map (fun i => match fn i with
                       | Some q => [(i, q)]
                       | None => []
                       end) (seq a n) =
    if Nat.leb a k && Nat.ltb k (a + n) then [(k, p)] else [].
Proof.
  intros Hfn n. induction n as [|n IH]; intro a.
  - simpl. destruct (Nat.leb_spec a k), (Nat.ltb_spec k (a + 0));
      simpl; try reflexivity; lia.
  - simpl. rewrite IH, Hfn.
    destruct (Nat.eqb_spec a k) as [E|E].
    + subst a.
      destruct (Nat.leb_spec (S k) k), (Nat.leb_spec k k),
               (Nat.ltb_spec k (k + S n)); simpl; try reflexivity; lia.
    + destruct (Nat.leb_spec (S a) k), (Nat.leb_spec a k),
               (Nat.ltb_spec k (S a + n)), (Nat.ltb_spec k (a + S n));
        simpl; try reflexivity; lia.
Qed.

(** A callback that answers for one spring only starts that spring. *)
Lemma start_single (n k : nat) (p : SpringProps)
    (fn : nat -> option SpringProps) :
  (forall i, fn i = if Nat.eqb i k then Some p else None) ->
  (k < n)%nat -> start n fn = [(k, p)].
Proof.
  intros Hfn Hk. unfold start. rewrite (start_single_from k p fn Hfn).
  destruct (Nat.ltb_spec k (0 + n)); [reflexivity|lia].
Qed.

Lemma start_dragFollow (state : RootState) (d : DragRef) (n di : nat) :
  DragRef.i d = Some di -> (di < n)%nat ->
  start n (dragFollow state d) = [(di, dragTarget state d)].
Proof.
  intros Hi Hn. apply start_single; [|exact Hn].
  intro i. unfold dragFollow. rewrite Hi. reflexivity.
Qed.

(** C6 (as stated, with a card out of focus dragged).  Card 1 is dragged,
    the focus is on card 0 and is not hovered: the frame at 22.52 s writes
    the pointer target for card 1, then the idle-cycle target for card 0,
    and the flip trigger fires on card 0. *)
Lemma C6_idle_cycle_runs_while_other_card_dragged :
  let o := useFrame sin_ref (frameAt 22.52) draggingOther in
  let c := frameClock 22.52 draggingOther in
  DragRef.dragging (drag draggingOther) = true /\
  DragRef.i (drag draggingOther) = Some 1%nat /\
  focus (store draggingOther) = 0%nat /\
  tickGate c = true /\
  nth_error (calls o) 0 =
    Some [(1%nat, dragTarget (frameAt 22.52) (drag draggingOther))] /\
  nth_error (calls o) 1 =
    Some [(0%nat, idleTarget (valueOf (cycleAt sin_ref c))
                             (valueOf (sin_ref (elapsed c * 2))))] /\
  flips o = [0%nat].
Proof. vm_compute. repeat split; reflexivity. Qed.

(** C6 (amended).  On a frame that passes the tick gate while a drag is in
    progress, the first springs call gives the dragged card the pointer
    projected through the viewport ([mouse * viewport / 3]) at depth 1 with
    the rotation of [dragTilt]; and when the dragged card is the focused
    card (or the focused card is hovered) that is the only call: no
    idle-cycle target is written, [flip] is not called, and [animOffset]
    takes the frame's time. *)
Theorem C6_drag_of_focused_card_pauses_idle_cycle
    (Math_sin : Q -> decimal) (state : RootState) (s : Scene) (di : nat) :
  let c := frameClock (getElapsedTime state) s in
  let o := useFrame Math_sin state s in
  DragRef.dragging (drag s) = true ->
  DragRef.i (drag s) = Some di ->
  (di < List.length (cards (store s)))%nat ->
  tickGate c = true ->
  hd_error (calls o) = Some [(di, dragTarget state (drag s))] /\
  sp_position (dragTarget state (drag s)) =
    Some (fst (state_mouse state) * fst (viewport state) / 3,
          snd (state_mouse state) * snd (viewport state) / 3, 1) /\
  sp_rotation (dragTarget state (drag s)) =
    Some (mkEuler (dragTilt (0, 0, 0) (drag s) 1 1) None) /\
  (di = focus (store s) -> paused s = true) /\
  (paused s = true ->
   calls o = [[(di, dragTarget state (drag s))]] /\
   flips o = [] /\ thrown o = None /\
   animOffset (clock (after o)) =
     animOffset c + (elapsed c - prevElapsed c)).
Proof.
  intros c o Hdrag Hi Hlen Hg.
  pose proof (start_dragFollow state (drag s) _ di Hi Hlen) as Hstart.
  split; [|split; [reflexivity|split; [reflexivity|split]]].
  - unfold o, useFrame. fold c. rewrite Hg, Hdrag. simpl. rewrite Hstart.
    destruct (paused s); [reflexivity|]. simpl.
    destruct (flipTrigger _ _ _) as [[|]|e]; try reflexivity.
    destruct (flip (focus (store s)) (store s)); reflexivity.
  - intro E. unfold paused. rewrite Hi, E. simpl.
    rewrite Nat.eqb_refl. reflexivity.
  - intro Hp. unfold o, useFrame. fold c. rewrite Hg, Hdrag, Hp. simpl.
    rewrite Hstart. auto.
Qed.

(** The statement of C6 on a frame with the focused card 0 dragged. *)
Lemma C6_drag_of_focused_card_witness :
  let o := useFrame sin_ref (frameAt 22.52) draggingFocus in
  calls o = [[(0%nat, dragTarget (frameAt 22.52) (drag draggingFocus))]] /\
  flips o = [].
Proof.
  destruct (C6_drag_of_focused_card_pauses_idle_cycle
              sin_ref (frameAt 22.52) draggingFocus 0)
    as (_ & _ & _ & Hfocus & Hpaused);
    [reflexivity | reflexivity | vm_compute; lia | vm_compute; reflexivity |].
  destruct (Hpaused (Hfocus eq_refl)) as (Hc & Hf & _).
  exact (conj Hc Hf).
Defined.

(** ** The animation offset *)

Lemma frameClock_fields (t : Q) (s : Scene) :
  elapsed (frameClock t s) = t /\
  prevElapsed (frameClock t s) = elapsed (clock s) /\
  animOffset (frameClock t s) = animOffset (clock s).
Proof. unfold frameClock. destruct (Qgtb _ _); simpl; auto. Qed.

(** The clock a frame leaves. *)
Lemma useFrame_clock_after (Math_sin : Q -> decimal) (state : RootState)
    (s : Scene) :
  let t := getElapsedTime state in
  let c' := clock (after (useFrame Math_sin state s)) in
  elapsed c' = t /\ prevElapsed c' = elapsed (clock s) /\
  animOffset c' =
    if tickGate (frameClock t s) && paused s
    then animOffset (clock s) + (t - elapsed (clock s))
    else animOffset (clock s).
Proof.
  intros t c'.
  destruct (frameClock_fields t s) as (E1 & E2 & E3).
  destruct (tickGate (frameClock t s) && paused s) eqn:G.
  - apply andb_true_iff in G. destruct G as [Hg Hp].
    destruct (useFrame_paused Math_sin state s Hg Hp) as (_ & _ & _ & Hc).
    fold t in Hc. fold c' in Hc. rewrite Hc. simpl.
    rewrite E1, E2, E3. auto.
  - pose proof (useFrame_clock_unpaused Math_sin state s G) as Hc.
    fold t in Hc. fold c' in Hc. rewrite Hc. auto.
Qed.

(** C7.  The effective time [elapsed - animOffset] does not stay constant
    during a pause: the accumulation of [animOffset] sits after the tick
    gate, while [prevElapsed] moves before it.  The pointer is over the
    focused card from the start.  The first frame of a 60 Hz run, at
    0.016 s, is stopped by the gate: the clock moves, [animOffset] does
    not, and the effective time goes from 0 to 0.016 during the pause.
    Later in the same pause, the frame at 30.5 s moves [lastTick] and is
    stopped too: the effective time, 0 after the frame at 30 s, is 0.5. *)
Lemma C7_gated_frame_moves_effective_time :
  let o := useFrame sin_ref (frameAt 0.016) hoveringFocus in
  let s30 := frames sin_ref [frameAt 30] hoveringFocus in
  let o' := useFrame sin_ref (frameAt 30.5) s30 in
  paused hoveringFocus = true /\
  effectiveTime (clock hoveringFocus) == 0 /\
  animOffset (clock (after o)) == 0 /\
  effectiveTime (clock (after o)) == 0.016 /\
  paused s30 = true /\
  effectiveTime (clock s30) == 0 /\
  effectiveTime (clock (after o')) == 0.5.
Proof. vm_compute. repeat split; reflexivity. Qed.

(** * Further properties of the code *)

(** ** The store *)

Lemma assign_nth_error (f : CardType -> CardType) (l : list CardType) :
  forall i l', assign f i l = Ok l' ->
    forall k, nth_error l' k =
              if Nat.eqb k i then option_map f (nth_error l k)
              else nth_error l k.
Proof.
  induction l as [|c l IH]; intros i l' H k; [discriminate|].
  destruct i as [|i]; simpl in H.
  - inversion H; subst. destruct k; reflexivity.
  - destruct (assign f i l) as [l''|] eqn:E; [|discriminate].
    simpl in H. inversion H; subst.
    destruct k as [|k]; [reflexivity|]. simpl. apply (IH i l'' E).
Qed.

Lemma assign_length (f : CardType -> CardType) (l : list CardType) :
  forall i l', assign f i l = Ok l' -> List.length l' = List.length l.
Proof.
  induction l as [|c l IH]; intros i l' H; [discriminate|].
  destruct i as [|i]; simpl in H.
  - inversion H; reflexivity.
  - destruct (assign f i l) as [l''|] eqn:E; [|discriminate].
    simpl in H. inversion H; subst. simpl. f_equal. apply (IH i l'' E).
Qed.

Lemma assign_ok_iff (f : CardType -> CardType) (i : nat) (l : list CardType) :
  (exists l', assign f i l = Ok l') <-> (i < List.length l)%nat.
Proof.
  split.
  - intros (l' & H). destruct (Nat.lt_ge_cases i (List.length l)) as [L|G];
      [exact L|]. rewrite assign_out_of_range in H by exact G. discriminate.
  - intro H. destruct (assign_in_range f l i H) as (l' & E & _). eauto.
Qed.

(** X1. [flip(i)] returns exactly when card [i] exists, and then it keeps the
    focus and the number of cards, sets one timer for [i] and changes no
    card but [i], whose flag is negated and whose lift is 4.5; on a missing
    card it throws a [TypeError]. *)
Theorem flip_in_range_or_throws (i : nat) (s : Store) :
  ((i < List.length (cards s))%nat ->
   exists r, flip i s = Ok r /\ snd r = [LiftReset i 100] /\
     focus (fst r) = focus s /\
     List.length (cards (fst r)) = List.length (cards s) /\
     forall k, nth_error (cards (fst r)) k =
       if Nat.eqb k i
       then option_map (fun c => Card.mk (negb (Card.flip c)) (Some 4.5))
                       (nth_error (cards s) k)
       else nth_error (cards s) k) /\
  ((List.length (cards s) <= i)%nat -> flip i s = Err TypeError).
Proof.
  split.
  - intro H. unfold flip, bump.
    destruct (assign_in_range (set_lift 4.5) (cards s) i H) as (l1 & E1 & L1).
    rewrite E1. cbn [bind fst snd cards focus].
    destruct (assign_in_range toggle_flip l1 i) as (l2 & E2 & L2);
      [rewrite L1; exact H|].
    rewrite E2. cbn [bind]. eexists. split; [reflexivity|].
    cbn [fst snd cards focus]. repeat split; [congruence|].
    intro k. rewrite (assign_nth_error _ _ _ _ E2 k),
                     (assign_nth_error _ _ _ _ E1 k).
    destruct (Nat.eqb k i); [|reflexivity].
    destruct (nth_error (cards s) k); reflexivity.
  - intro H. unfold flip, bump. rewrite assign_out_of_range by exact H.
    reflexivity.
Qed.

(** X2. Flipping a card twice gives back every flip flag; the card is left
    lifted and each flip sets its own timer. *)
Theorem flip_twice_restores_flags (i : nat) (s : Store) :
  (i < List.length (cards s))%nat ->
  exists r1 r2,
    flip i s = Ok r1 /\ flip i (fst r1) = Ok r2 /\
    map Card.flip (cards (fst r2)) = map Card.flip (cards s) /\
    option_map Card.lift (nth_error (cards (fst r2)) i) = Some (Some 4.5) /\
    focus (fst r2) = focus s /\
    snd r1 ++ snd r2 = [LiftReset i 100; LiftReset i 100].
Proof.
  intro H.
  destruct (flip_in_range_or_throws i s) as [F1 _].
  destruct (F1 H) as (r1 & E1 & T1 & Fo1 & L1 & N1).
  destruct (flip_in_range_or_throws i (fst r1)) as [F2 _].
  destruct F2 as (r2 & E2 & T2 & Fo2 & L2 & N2); [rewrite L1; exact H|].
  exists r1, r2. split; [exact E1|]. split; [exact E2|].
  split; [|split; [|split]].
  - apply nth_error_ext. intro k. rewrite !nth_error_map, N2, N1.
    destruct (Nat.eqb k i); [|reflexivity].
    destruct (nth_error (cards s) k) as [c|]; [|reflexivity].
    simpl. rewrite negb_involutive. reflexivity.
  - rewrite N2, N1, Nat.eqb_refl.
    destruct (nth_error (cards s) i) as [c|] eqn:E; [reflexivity|].
    apply nth_error_None in E. lia.
  - congruence.
  - rewrite T1, T2. reflexivity.
Qed.

Lemma flip_twice_witness :
  exists r1 r2,
    flip 3 fourCards = Ok r1 /\ flip 3 (fst r1) = Ok r2 /\
    map Card.flip (cards (fst r2)) = map Card.flip (cards fourCards) /\
    option_map Card.lift (nth_error (cards (fst r2)) 3) = Some (Some 4.5) /\
    focus (fst r2) = focus fourCards /\
    snd r1 ++ snd r2 = [LiftReset 3 100; LiftReset 3 100].
Proof. apply (flip_twice_restores_flags 3 fourCards). simpl. lia. Defined.

(** X3. The two halves of [bump] with nothing in between: the card ends with
    lift 0, its flip flag and every other card are as before. *)
Theorem bump_then_timer_resets_lift (i : nat) (s : Store) :
  (i < List.length (cards s))%nat ->
  exists s1 t s2,
    bump i s = Ok (s1, [t]) /\ runTimer t s1 = Ok s2 /\
    focus s2 = focus s /\
    forall k, nth_error (cards s2) k =
      if Nat.eqb k i
      then option_map (fun c => Card.mk (Card.flip c) (Some 0))
                      (nth_error (cards s) k)
      else nth_error (cards s) k.
Proof.
  intro H. unfold bump.
  destruct (assign_in_range (set_lift 4.5) (cards s) i H) as (l1 & E1 & L1).
  rewrite E1. cbn [bind].
  destruct (assign_in_range (set_lift 0) l1 i) as (l2 & E2 & L2);
    [rewrite L1; exact H|].
  eexists. eexists. exists (mkStore l2 (focus s)).
  split; [reflexivity|]. unfold runTimer. cbn [cards focus].
  rewrite E2. cbn [bind]. split; [reflexivity|]. split; [reflexivity|].
  intro k. cbn [cards].
  rewrite (assign_nth_error _ _ _ _ E2 k), (assign_nth_error _ _ _ _ E1 k).
  destruct (Nat.eqb k i); [|reflexivity].
  destruct (nth_error (cards s) k); reflexivity.
Qed.

Lemma bump_then_timer_witness :
  exists s1 t s2,
    bump 3 fourCards = Ok (s1, [t]) /\ runTimer t s1 = Ok s2 /\
    focus s2 = focus fourCards /\
    forall k, nth_error (cards s2) k =
      if Nat.eqb k 3
      then option_map (fun c => Card.mk (Card.flip c) (Some 0))
                      (nth_error (cards fourCards) k)
      else nth_error (cards fourCards) k.
Proof. apply (bump_then_timer_resets_lift 3 fourCards). simpl. lia. Defined.

(** ** The digit test on every kind of number *)

(** X4. On a number from 10^-6 up to 1 the digit test does what its comment
    says, whatever the sign: the zeros after the point, then the digits of
    the number, then [NaN] past the last digit; it never throws. *)
Theorem nthDigit_of_fraction (ntn : nat) (b : bool) (ds : list nat) (ex : Z) :
  forallb digit_ok ds = true -> ds <> [] -> (-6 < ex <= 0)%Z ->
  nthDigit ntn (mkDec b ds ex) =
  Ok (if Nat.ltb ntn (Z.to_nat (- ex)) then Num 0
      else match nth_error ds (ntn - Z.to_nat (- ex)) with
           | Some d => Num d
           | None => NaN
           end).
Proof.
  intros Hall Hne Hpt. unfold nthDigit.
  rewrite (toString_fraction b ds ex Hne Hpt).
  set (z := Z.to_nat (- ex)).
  assert (Hs : split "." (String "0" (String "." (zeros z ++ digit_string ds)))
               = ["0"%string; (zeros z ++ digit_string ds)%string]).
  { cbn [split]. change (Ascii.eqb "0" ".") with false.
    change (Ascii.eqb "." ".") with true. cbv iota.
    rewrite (split_zeros_prefix z (digit_string ds) (digit_string ds) []).
    - reflexivity.
    - rewrite <- (append_empty_r (digit_string ds)) at 1.
      rewrite (split_digit_prefix ds "" "" [] Hall eq_refl).
      rewrite append_empty_r. reflexivity. }
  rewrite (split_signed b _ _ _ Hs). cbn [nth_error].
  rewrite get_zeros_app.
  destruct (Nat.ltb ntn z); [reflexivity|].
  rewrite <- (append_empty_r (digit_string ds)), get_digit_app.
  rewrite <- (Number_of_digit ds (ntn - z) Hall).
  destruct (nth_error ds (ntn - z)); [reflexivity|].
  destruct (ntn - z - List.length ds)%nat; reflexivity.
Qed.

Lemma nthDigit_of_fraction_witness :
  nthDigit 2 (mkDec true [7; 3]%nat (-2)) =
  Ok (if Nat.ltb 2 (Z.to_nat (- -2)) then Num 0
      else match nth_error [7; 3]%nat (2 - Z.to_nat (- -2)) with
           | Some d => Num d
           | None => NaN
           end).
Proof.
  apply (nthDigit_of_fraction 2 true [7; 3]%nat (-2));
    [reflexivity | discriminate | lia].
Defined.

(** X5. The digit test throws on every number printed without a point: the
    integers below 10^21, and the numbers below 10^-6 with one significant
    digit. *)
Theorem nthDigit_throws_without_point
    (ntn : nat) (b : bool) (ds : list nat) (ex : Z) :
  forallb digit_ok ds = true -> ds <> [] ->
  (Z.of_nat (List.length ds) <= ex <= 21)%Z \/
  (List.length ds = 1%nat /\ (ex <= -6)%Z) ->
  nthDigit ntn (mkDec b ds ex) = Err TypeError.
Proof.
  intros Hall Hne Hcase. unfold nthDigit, toString. cbn [digits neg pt].
  destruct ds as [|d ds']; [contradiction|].
  assert (Hd : digit_ok d = true)
    by (simpl in Hall; apply andb_true_iff in Hall; tauto).
  destruct (digit_char_spec d Hd) as [Hdot _].
  destruct Hcase as [Hint|[Hone Hpt]].
  - assert (Hs : exists w, toString_pos (d :: ds') ex = w /\
                           split "." w = [w]).
    { unfold toString_pos.
      replace (Z.of_nat (List.length (d :: ds')) <=? ex)%Z with true
        by (symmetry; apply Z.leb_le; lia).
      replace (ex <=? 21)%Z with true by (symmetry; apply Z.leb_le; lia).
      cbn [andb]. cbv iota. eexists. split; [reflexivity|].
      apply split_digit_prefix; [exact Hall|].
      rewrite <- (append_empty_r (zeros _)) at 1.
      rewrite (split_zeros_prefix _ "" "" [] eq_refl), append_empty_r.
      reflexivity. }
    destruct Hs as (w & Ew & Sw). rewrite Ew.
    rewrite (split_signed b w w [] Sw). reflexivity.
  - destruct ds' as [|d' ds'']; [|simpl in Hone; lia].
    assert (Hs : exists w, toString_pos [d] ex = w /\ split "." w = [w]).
    { unfold toString_pos.
      replace (Z.of_nat (List.length [d]) <=? ex)%Z with false
        by (symmetry; apply Z.leb_gt; simpl List.length; lia).
      replace (0 <? ex)%Z with false by (symmetry; apply Z.ltb_ge; lia).
      replace (-6 <? ex)%Z with false by (symmetry; apply Z.ltb_ge; lia).
      replace (ex - 1 <? 0)%Z with true by (symmetry; apply Z.ltb_lt; lia).
      cbn [andb]. cbv iota. eexists. split; [reflexivity|].
      cbn [digit_string append split]. rewrite Hdot.
      change (Ascii.eqb "e" ".") with false.
      change (Ascii.eqb "-" ".") with false. cbv iota.
      unfold nat_string. rewrite split_uint. reflexivity. }
    destruct Hs as (w & Ew & Sw). rewrite Ew.
    rewrite (split_signed b w w [] Sw). reflexivity.
Qed.

Lemma nthDigit_throws_witness : nthDigit 1 (mkDec false [4; 2]%nat 2) = Err TypeError.
Proof.
  apply (nthDigit_throws_without_point 1 false [4; 2]%nat 2);
    [reflexivity | discriminate | left; simpl; lia].
Defined.

(** X6. Below 10^-6 the string is in exponent notation and the digit test reads
    the digits of the mantissa after its first: the "first decimal" of
    [d1.d2d3...e-k] comes out as [d2], though the first decimal of the
    number is 0. *)
Theorem nthDigit_reads_mantissa_below_1e_6
    (ntn : nat) (b : bool) (d1 d2 : nat) (t : list nat) (ex : Z) (d : nat) :
  forallb digit_ok (d1 :: d2 :: t) = true -> (ex <= -6)%Z ->
  nth_error (d2 :: t) ntn = Some d ->
  nthDigit ntn (mkDec b (d1 :: d2 :: t) ex) = Ok (Num d).
Proof.
  intros Hall Hpt Hn. unfold nthDigit, toString. cbn [digits neg pt].
  assert (Hall' : forallb digit_ok (d2 :: t) = true)
    by (simpl in Hall; apply andb_true_iff in Hall; tauto).
  assert (Hd1 : digit_ok d1 = true)
    by (simpl in Hall; apply andb_true_iff in Hall; tauto).
  destruct (digit_char_spec d1 Hd1) as [Hdot _].
  unfold toString_pos.
  replace (Z.of_nat (List.length (d1 :: d2 :: t)) <=? ex)%Z with false
    by (symmetry; apply Z.leb_gt; simpl List.length; lia).
  replace (0 <? ex)%Z with false by (symmetry; apply Z.ltb_ge; lia).
  replace (-6 <? ex)%Z with false by (symmetry; apply Z.ltb_ge; lia).
  cbn [andb]. cbv iota.
  set (rest := ("e" ++ (if (ex - 1 <? 0)%Z then "-" else "+") ++
                nat_string (Z.abs_nat (ex - 1)))%string).
  destruct (split_cons "." rest) as (h & r & Er).
  assert (Hs : split "." (digit_string [d1] ++ "." ++
                          digit_string (d2 :: t) ++ rest) =
               digit_string [d1] :: (digit_string (d2 :: t) ++ h)%string :: r).
  { pose proof (split_digit_prefix (d2 :: t) rest h r Hall' Er) as Hp.
    set (tail := (digit_string (d2 :: t) ++ rest)%string) in *.
    set (hd := (digit_string (d2 :: t) ++ h)%string) in *.
    change (split "." (String (digit_char d1) (String "." tail)) =
            String (digit_char d1) EmptyString :: hd :: r).
    cbn [split]. rewrite Hdot.
    change (Ascii.eqb "." ".") with true. cbv iota.
    rewrite Hp. reflexivity. }
  rewrite (split_signed b _ _ _ Hs). cbn [nth_error].
  rewrite get_digit_app, Hn.
  apply nth_error_In in Hn. rewrite forallb_forall in Hall'.
  destruct (digit_char_spec d (Hall' d Hn)) as [_ Hnum]. rewrite Hnum.
  reflexivity.
Qed.

Lemma nthDigit_reads_mantissa_witness :
  nthDigit 0 (mkDec false [1; 9; 1]%nat (-6)) = Ok (Num 9).
Proof.
  apply (nthDigit_reads_mantissa_below_1e_6 0 false 1 9 [1%nat] (-6) 9);
    [reflexivity | lia | reflexivity].
Defined.

(** ** The tilt functions *)

Lemma clamp_spec (v lo hi : Q) :
  lo <= hi ->
  lo <= clamp v lo hi /\ clamp v lo hi <= hi /\
  (lo <= v -> v <= hi -> clamp v lo hi == v).
Proof.
  intro H. unfold clamp, Math_max, Math_min.
  destruct (Qle_bool hi v) eqn:E1.
  - apply Qle_bool_iff in E1.
    destruct (Qle_bool lo hi) eqn:E2.
    + repeat split; try lra.
    + apply (Qgeb_false hi lo) in E2. lra.
  - apply (Qgeb_false v hi) in E1.
    destruct (Qle_bool lo v) eqn:E2.
    + apply Qle_bool_iff in E2. repeat split; lra.
    + apply (Qgeb_false v lo) in E2. repeat split; lra.
Qed.

(** X8. The tilt of a dragged card stays within a quarter radian times
    [rangeFactor] on both axes whatever the velocity, a drag slow enough is
    not clamped, and the third component is the base rotation's. *)
Theorem dragTilt_clamped
    (baseRotation : vec3) (d : DragRef) (factor rangeFactor : Q) :
  0 <= rangeFactor ->
  let r := dragTilt baseRotation d factor rangeFactor in
  let tx := vx baseRotation + DragRef.vY d * DragRef.dY d * factor in
  let ty := vy baseRotation + DragRef.vX d * DragRef.dX d * factor in
  -0.25 * rangeFactor <= vx r /\ vx r <= 0.25 * rangeFactor /\
  -0.25 * rangeFactor <= vy r /\ vy r <= 0.25 * rangeFactor /\
  vz r = vz baseRotation /\
  (-0.25 * rangeFactor <= tx -> tx <= 0.25 * rangeFactor -> vx r == tx) /\
  (-0.25 * rangeFactor <= ty -> ty <= 0.25 * rangeFactor -> vy r == ty).
Proof.
  intros H r tx ty. unfold r, dragTilt. cbn [vx vy vz fst snd].
  assert (Hr : -0.25 * rangeFactor <= 0.25 * rangeFactor) by lra.
  destruct (clamp_spec tx _ _ Hr) as (A1 & A2 & A3).
  destruct (clamp_spec ty _ _ Hr) as (B1 & B2 & B3).
  fold tx ty. repeat split; assumption.
Qed.

Lemma dragTilt_clamped_witness :
  let d := DragRef.mk 0 0 7 (-3) 1 1 (Some 1%nat) true true in
  let r := dragTilt (0, 0, 0) d 1 1 in
  -0.25 * 1 <= vx r /\ vx r <= 0.25 * 1 /\
  -0.25 * 1 <= vy r /\ vy r <= 0.25 * 1.
Proof.
  destruct (dragTilt_clamped (0, 0, 0)
              (DragRef.mk 0 0 7 (-3) 1 1 (Some 1%nat) true true) 1 1)
    as (A & B & C & D & _); [lra|].
  exact (conj A (conj B (conj C D))).
Defined.

Lemma Qdiv_neg_unit_interval (a b : Q) :
  0 <= a -> a <= - b -> b < 0 -> -1 <= a / b /\ a / b <= 0.
Proof.
  intros Ha Hab Hb.
  assert (E : a / b == - (a / - b)) by (field; lra).
  destruct (Qdiv_unit_interval a (- b)) as [L U]; try lra.
Qed.

Lemma degToRad_pos : 0 < degToRad 5 /\ 0 < degToRad 10.
Proof. split; reflexivity. Qed.

(** X9. With the pointer inside the bounding box of the hovered object (which
    has the origin strictly inside), the hover tilt moves the first
    component by at most 5 degrees and the second by at most 10 degrees,
    keeps the third, and tags the rotation with the order ZXY; without a
    hovered object the rotation is returned as it is, without a tag. *)
Theorem hoverTilt_bounded
    (baseRotation : vec3) (m : MouseRef) (o : Object3D) :
  object m = Some o ->
  vx (bbox_min o) < 0 -> 0 < vx (bbox_max o) ->
  vy (bbox_min o) < 0 -> 0 < vy (bbox_max o) ->
  vx (bbox_min o) <= fst (hoverPosition m) ->
  fst (hoverPosition m) <= vx (bbox_max o) ->
  vy (bbox_min o) <= snd (hoverPosition m) ->
  snd (hoverPosition m) <= vy (bbox_max o) ->
  let r := rot (hoverTilt baseRotation m) in
  vx baseRotation - degToRad 5 <= vx r /\
  vx r <= vx baseRotation + degToRad 5 /\
  vy baseRotation - degToRad 10 <= vy r /\
  vy r <= vy baseRotation + degToRad 10 /\
  vz r = vz baseRotation /\
  order (hoverTilt baseRotation m) = Some "ZXY"%string /\
  hoverTilt baseRotation (mkMouse (position m) (hoverPosition m) None)
    = mkEuler baseRotation None.
Proof.
  intros Ho Xn Xp Yn Yp X1 X2 Y1 Y2 r.
  destruct degToRad_pos as [D5 D10].
  unfold r, hoverTilt. rewrite Ho. cbn [rot order].
  change (vx (?a, ?b, ?c)) with a.
  change (vy (?a, ?b, ?c)) with b.
  change (vz (?a, ?b, ?c)) with c.
  set (hx := fst (hoverPosition m)) in *.
  set (hy := snd (hoverPosition m)) in *.
  set (mX := if Qgeb hx 0 then hx / vx (bbox_max o)
             else - hx / vx (bbox_min o)).
  set (mY := if Qgeb hy 0 then hy / vy (bbox_max o)
             else - hy / vy (bbox_min o)).
  assert (HX : -1 <= mX /\ mX <= 1).
  { unfold mX. destruct (Qgeb hx 0) eqn:E.
    - apply Qgeb_true in E.
      destruct (Qdiv_unit_interval hx (vx (bbox_max o))); try lra.
    - apply Qgeb_false in E.
      destruct (Qdiv_neg_unit_interval (- hx) (vx (bbox_min o))); try lra. }
  assert (HY : -1 <= mY /\ mY <= 1).
  { unfold mY. destruct (Qgeb hy 0) eqn:E.
    - apply Qgeb_true in E.
      destruct (Qdiv_unit_interval hy (vy (bbox_max o))); try lra.
    - apply Qgeb_false in E.
      destruct (Qdiv_neg_unit_interval (- hy) (vy (bbox_min o))); try lra. }
  clearbody mX mY.
  set (D5' := degToRad 5) in *. set (D10' := degToRad 10) in *.
  clearbody D5' D10'.
  repeat split; try reflexivity; nra.
Qed.

Lemma hoverTilt_bounded_witness :
  let o := mkObject (-1, -2, 0) (1, 2, 0) in
  let m := mkMouse (0, 0) (0.5, -1) (Some o) in
  let r := rot (hoverTilt (0, 0, 0) m) in
  0 - degToRad 5 <= vx r /\ vx r <= 0 + degToRad 5 /\
  0 - degToRad 10 <= vy r /\ vy r <= 0 + degToRad 10.
Proof.
  destruct (hoverTilt_bounded (0, 0, 0)
              (mkMouse (0, 0) (0.5, -1)
                       (Some (mkObject (-1, -2, 0) (1, 2, 0))))
              (mkObject (-1, -2, 0) (1, 2, 0)))
    as (A & B & C & D & _);
    try reflexivity; try (vm_compute; discriminate).
  exact (conj A (conj B (conj C D))).
Defined.

(** ** The layout *)

Lemma layout_j_increasing (i i' focus : nat) :
  i <> focus -> i' <> focus -> (i < i')%nat ->
  (layout_j i focus < layout_j i' focus)%Z.
Proof.
  intros H1 H2 H. unfold layout_j.
  destruct (Nat.ltb_spec focus i), (Nat.ltb_spec focus i'); lia.
Qed.

Lemma phase_general (i focus len : nat) :
  (3 <= len)%nat ->
  phase i focus len ==
  inject_Z (layout_j i focus) * / inject_Z (Z.of_nat len - 2) - (1 # 2).
Proof.
  intro H. unfold phase, layout_num.
  destruct (Z.eqb_spec (Z.of_nat len - 1) 1) as [E|E]; [lia|].
  replace (Z.of_nat len - 1 - 1)%Z with (Z.of_nat len - 2)%Z by lia.
  unfold Qdiv. lra.
Qed.

Lemma inv_len_pos (len : nat) :
  (3 <= len)%nat -> 0 < / inject_Z (Z.of_nat len - 2).
Proof.
  intro H. apply Qinv_lt_0_compat. change 0 with (inject_Z 0).
  rewrite <- Zlt_Qlt. lia.
Qed.

Lemma phase_increasing (i i' focus len : nat) :
  (3 <= len)%nat -> i <> focus -> i' <> focus -> (i < i')%nat ->
  phase i focus len < phase i' focus len.
Proof.
  intros Hlen H1 H2 Hlt.
  pose proof (inv_len_pos len Hlen) as Hpos.
  rewrite !(phase_general _ _ _ Hlen).
  pose proof (layout_j_increasing i i' focus H1 H2 Hlt) as Hj.
  rewrite Zlt_Qlt in Hj.
  assert (inject_Z (layout_j i focus) * / inject_Z (Z.of_nat len - 2)
          < inject_Z (layout_j i' focus) * / inject_Z (Z.of_nat len - 2))
    by (apply Qmult_lt_compat_r; assumption).
  lra.
Qed.

Lemma phase_ends (i focus len : nat) :
  (3 <= len)%nat ->
  (layout_j i focus = 0%Z -> phase i focus len == - (1 # 2)) /\
  (layout_j i focus = (layout_num len - 1)%Z -> phase i focus len == 1 # 2).
Proof.
  intro Hlen. rewrite !(phase_general _ _ _ Hlen). split; intro Hj; rewrite Hj.
  - change (inject_Z 0) with 0. lra.
  - unfold layout_num.
    replace (Z.of_nat len - 1 - 1)%Z with (Z.of_nat len - 2)%Z by lia.
    rewrite Qmult_inv_r; [lra|].
    assert (Hx : inject_Z 0 < inject_Z (Z.of_nat len - 2))
      by (rewrite <- Zlt_Qlt; lia).
    change (inject_Z 0) with 0 in Hx. intro E. lra.
Qed.

(** X10. In a row of three to ten cards the first coordinates of the
    positions [cardsLayout] gives to the cards out of focus grow strictly
    with the index, and the first and last places of the row are at minus
    and plus half the width: the row keeps the order of the cards and is
    centred.  This holds of the exact values and of the doubles. *)
Theorem cardsLayout_orders_the_row
    (i i' focus : nat) (cards : list CardType) (hover : list slot)
    (mouse : MouseRef) :
  let len := List.length cards in
  let width := inject_Z (layout_num len) * 0.6 in
  (3 <= len)%nat -> (len <= cardCount_max)%nat -> (focus < len)%nat ->
  (i < len)%nat -> (i' < len)%nat -> i <> focus -> i' <> focus ->
  exists x x',
    layout_x i focus cards hover mouse = Some x /\
    layout_x i' focus cards hover mouse = Some x' /\
    ((i < i')%nat ->
     x < x' /\
     (Double.position_x i focus len <? Double.position_x i' focus len)%float
       = true) /\
    (layout_j i focus = 0%Z ->
     x == - (1 # 2) * width /\
     (Double.position_x i focus len =? -0.5 * Double.width len)%float
       = true) /\
    (layout_j i focus = (layout_num len - 1)%Z ->
     x == (1 # 2) * width /\
     (Double.position_x i focus len =? 0.5 * Double.width len)%float = true).
Proof.
  intros len width H3 Hmax Hf Hi Hi' Hne Hne'.
  destruct (layout_row_facts len focus i Hmax Hi Hf Hne) as [Hc Hp].
  assert (Hw : 0 < width).
  { unfold width, layout_num.
    assert (Hx : inject_Z 0 < inject_Z (Z.of_nat len - 1))
      by (rewrite <- Zlt_Qlt; lia).
    change (inject_Z 0) with 0 in Hx. lra. }
  destruct (phase_ends i focus len H3) as [E0 E1].
  unfold phase_card_ok in Hc.
  destruct (Z.eqb_spec (layout_num len) 1) as [E|_];
    [unfold layout_num in E; lia|].
  apply andb_true_iff in Hc. destruct Hc as [_ Hc].
  repeat (apply andb_true_iff in Hc; destruct Hc as [Hc ?]).
  exists (phase i focus len * width), (phase i' focus len * width).
  split; [apply layout_x_value|]. split; [apply layout_x_value|].
  split; [|split].
  - intro L. split.
    + pose proof (phase_increasing i i' focus len H3 Hne Hne' L).
      apply Qmult_lt_compat_r; assumption.
    + specialize (Hp i' Hi' Hne'). unfold phase_pair_ok in Hp.
      apply andb_true_iff in Hp. destruct Hp as [Hlt _].
      apply Nat.ltb_lt in L. rewrite L in Hlt. simpl in Hlt.
      apply andb_true_iff in Hlt. exact (proj2 Hlt).
  - intro Ej. split; [rewrite (E0 Ej); reflexivity|].
    rewrite Ej in *. assumption.
  - intro Ej. split; [rewrite (E1 Ej); reflexivity|].
    rewrite Ej, Z.eqb_refl in *. assumption.
Qed.

Lemma cardsLayout_orders_witness :
  exists x x',
    layout_x 1 2 (cards fiveCards) (hover (initialScene 5)) initialMouse
      = Some x /\
    layout_x 3 2 (cards fiveCards) (hover (initialScene 5)) initialMouse
      = Some x' /\
    x < x' /\
    (Double.position_x 1 2 5 <? Double.position_x 3 2 5)%float = true.
Proof.
  destruct (cardsLayout_orders_the_row
              1 3 2 (cards fiveCards) (hover (initialScene 5)) initialMouse)
    as (x & x' & A & B & C & _);
    try (vm_compute; lia); try lia.
  exists x, x'. destruct C as [C1 C2]; [lia|].
  exact (conj A (conj B (conj C1 C2))).
Defined.

Lemma phase_range (i focus len : nat) :
  (i < len)%nat -> (focus < len)%nat -> i <> focus ->
  - (1 # 2) <= phase i focus len /\ phase i focus len <= 1 # 2.
Proof.
  intros Hi Hf Hne.
  pose proof (layout_j_range i focus len Hi Hf Hne) as Hj.
  unfold phase.
  destruct (Z.eqb_spec (layout_num len) 1) as [E|E]; [split; lra|].
  assert (Hpos : (0 < layout_num len - 1)%Z)
    by (unfold layout_num in *; lia).
  destruct (Qdiv_unit_interval (inject_Z (layout_j i focus))
              (inject_Z (layout_num len - 1))) as [L U].
  - change 0 with (inject_Z 0). rewrite <- Zle_Qle. lia.
  - rewrite <- Zle_Qle. lia.
  - change 0 with (inject_Z 0). rewrite <- Zlt_Qlt. exact Hpos.
  - split; lra.
Qed.

(** X11. Where the layout puts a card out of focus: within half the row width
    on either side, never above the row line -2.25 and at most
    [num * 0.025] below it when it is not hovered, and exactly 0.1 higher
    and 0.2 nearer when it is; the scale and the spring are fixed. *)
Theorem cardsLayout_position_bounds
    (i focus : nat) (cards : list CardType) (hover : list slot)
    (m : MouseRef) :
  (i < List.length cards)%nat -> (focus < List.length cards)%nat ->
  i <> focus ->
  let num := inject_Z (layout_num (List.length cards)) in
  let lift := if hovered hover i then 0.1 else 0 in
  let near := if hovered hover i then 0.2 else 0 in
  exists x y z,
    sp_position (cardsLayout i focus cards hover m) = Some (x, y, z) /\
    - (0.3 * num) <= x /\ x <= 0.3 * num /\
    -2.25 - 0.025 * num + lift <= y /\ y <= -2.25 + lift /\
    near - 0.005 <= z /\ z <= near + 0.005 /\
    sp_scale (cardsLayout i focus cards hover m) = Some (0.4, 0.4, 0.4) /\
    sp_config (cardsLayout i focus cards hover m)
      = Some cardMovementSpringConf.
Proof.
  intros Hi Hf Hne num lift near.
  destruct (phase_range i focus _ Hi Hf Hne) as [L U].
  assert (Hnum : 1 <= num).
  { unfold num, layout_num. change 1 with (inject_Z 1).
    rewrite <- Zle_Qle. lia. }
  unfold cardsLayout. cbn [sp_position sp_scale sp_config].
  fold num lift near.
  set (ph := phase i focus (List.length cards)) in *.
  eexists. eexists. eexists. split; [reflexivity|].
  assert (Habs : 0 <= Qabs (ph * (num * 0.05)) /\
                 Qabs (ph * (num * 0.05)) <= 0.025 * num).
  { split; [apply Qabs_nonneg|]. apply Qabs_Qle_condition. split; nra. }
  destruct Habs as [A0 A1]. clearbody ph num lift near.
  repeat split; try reflexivity; try nra; lra.
Qed.

Lemma cardsLayout_position_witness :
  exists x y z,
    sp_position (cardsLayout 1 0 (cards fourCards) (Array 4) initialMouse)
      = Some (x, y, z) /\
    - (0.3 * 3) <= x /\ x <= 0.3 * 3 /\ y <= -2.25 + 0.
Proof.
  destruct (cardsLayout_position_bounds 1 0 (cards fourCards) (Array 4)
              initialMouse) as (x & y & z & P & A & B & _ & C & _);
    [simpl; lia | simpl; lia | lia |].
  exists x, y, z. exact (conj P (conj A (conj B C))).
Defined.

(** X12. The idle-cycle target of the focused card for a cycle and a wobble in
    [-1, 1]: it swings at most 1 to either side, stays within 0.025 of
    height 1, comes from depth 0.2 up to 0.45 and never behind 0.2, and
    turns at most 0.05 pi; scale and spring are those of the focus slot. *)
Theorem idleTarget_bounds (cycle wobble : Q) :
  -1 <= cycle -> cycle <= 1 -> -1 <= wobble -> wobble <= 1 ->
  exists x y z ry,
    sp_position (idleTarget cycle wobble) = Some (x, y, z) /\
    sp_rotation (idleTarget cycle wobble) = Some (mkEuler (0, ry, 0) None) /\
    -1 <= x /\ x <= 1 /\ 0.975 <= y /\ y <= 1.025 /\
    0.2 <= z /\ z <= 0.45 /\
    - (0.05 * Math_PI) <= ry /\ ry <= 0.05 * Math_PI /\
    sp_scale (idleTarget cycle wobble) = Some (0.75, 0.75, 0.75).
Proof.
  intros C1 C2 W1 W2. unfold idleTarget.
  cbn [sp_position sp_rotation sp_scale focusCardLayout].
  change (vy focusCardLayout_position) with 1.
  change (vz focusCardLayout_position) with 0.2.
  eexists. eexists. eexists. eexists.
  split; [reflexivity|]. split; [reflexivity|].
  assert (Habs : 0 <= Qabs (cycle * 0.25) /\ Qabs (cycle * 0.25) <= 0.25).
  { split; [apply Qabs_nonneg|]. apply Qabs_Qle_condition. split; lra. }
  destruct Habs as [A0 A1].
  assert (Hpi : 0 < Math_PI) by reflexivity.
  set (P := Math_PI) in *. clearbody P.
  repeat split; try reflexivity; try lra; nra.
Qed.

Lemma idleTarget_bounds_witness :
  exists x y z ry,
    sp_position (idleTarget 0.5 (-1)) = Some (x, y, z) /\
    sp_rotation (idleTarget 0.5 (-1)) = Some (mkEuler (0, ry, 0) None) /\
    -1 <= x /\ x <= 1 /\ 0.975 <= y /\ y <= 1.025 /\ 0.2 <= z /\ z <= 0.45.
Proof.
  destruct (idleTarget_bounds 0.5 (-1))
    as (x & y & z & ry & P & R & A & B & C & D & E & F & _); try lra.
  exists x, y, z, ry.
  exact (conj P (conj R (conj A (conj B (conj C (conj D (conj E F))))))).
Defined.

(** ** More on the frame callback *)

Lemma flipTrigger_quiet (e : Q) (c p : decimal) :
  e <= 5 \/ valueOf c <= 0 -> flipTrigger e c p = Ok false.
Proof.
  intro H. unfold flipTrigger.
  destruct H as [H|H]; apply Qgtb_false in H; rewrite H;
    [|rewrite andb_false_r]; reflexivity.
Qed.

(** X13. A frame stopped by the tick gate, a frame with the focused card hovered
    or dragged, a frame in the first five seconds and a frame with the cycle
    at or below zero never throw, never call [flip], and leave the store and
    the pending timers as they are. *)
Theorem useFrame_quiet
    (Math_sin : Q -> decimal) (state : RootState) (s : Scene) :
  let c := frameClock (getElapsedTime state) s in
  let o := useFrame Math_sin state s in
  tickGate c = false \/ paused s = true \/ getElapsedTime state <= 5 \/
  valueOf (cycleAt Math_sin c) <= 0 ->
  thrown o = None /\ flips o = [] /\
  store (after o) = store s /\ timers (after o) = timers s.
Proof.
  intros c o H. unfold o, useFrame. fold c.
  destruct (tickGate c); [|simpl; auto].
  destruct (paused s); [simpl; auto|]. cbn [negb].
  destruct H as [H|[H|H]]; try discriminate.
  rewrite flipTrigger_quiet; [simpl; auto|].
  destruct (frameClock_fields (getElapsedTime state) s) as (E & _).
  fold c in E. rewrite E. exact H.
Qed.

Lemma useFrame_quiet_witness :
  let o := useFrame sin_ref (frameAt 4) (initialScene 4) in
  thrown o = None /\ flips o = [] /\
  store (after o) = store (initialScene 4) /\
  timers (after o) = timers (initialScene 4).
Proof.
  apply (useFrame_quiet sin_ref (frameAt 4) (initialScene 4)).
  right. right. left. vm_compute. discriminate.
Defined.

Lemma flip_other_cards (i : nat) (st : Store) (r : Store * list Timer) :
  flip i st = Ok r ->
  List.length (cards (fst r)) = List.length (cards st) /\
  forall k, k <> i -> nth_error (cards (fst r)) k = nth_error (cards st) k.
Proof.
  intro H. destruct (flip_in_range_or_throws i st) as [F _].
  destruct F as (r' & E & _ & _ & L & N).
  { apply assign_ok_iff with (f := set_lift 4.5).
    unfold flip, bump in H.
    destruct (assign (set_lift 4.5) i (cards st)); [eauto|discriminate]. }
  rewrite H in E. inversion E; subst r'. split; [exact L|].
  intros k Hk. rewrite N. apply Nat.eqb_neq in Hk. rewrite Hk. reflexivity.
Qed.

Lemma useFrame_cards (Math_sin : Q -> decimal) (state : RootState) (s : Scene) :
  List.length (cards (store (after (useFrame Math_sin state s))))
    = List.length (cards (store s)) /\
  forall k, k <> focus (store s) ->
    nth_error (cards (store (after (useFrame Math_sin state s)))) k
      = nth_error (cards (store s)) k.
Proof.
  unfold useFrame.
  destruct (tickGate _); [|simpl; auto].
  destruct (paused s); [simpl; auto|]. simpl.
  destruct (flipTrigger _ _ _) as [[|]|e]; simpl; auto.
  destruct (flip (focus (store s)) (store s)) as [r|] eqn:E; simpl; auto.
  apply flip_other_cards in E. exact E.
Qed.

(** X14. Whatever the frames of a run do, they leave the hover flags, the drag
    state, the [tps] control, the focus and the number of cards alone, and
    they change no card but the focused one. *)
Theorem frames_touch_only_the_focused_card
    (Math_sin : Q -> decimal) (l : list RootState) (s : Scene) :
  hover (frames Math_sin l s) = hover s /\
  drag (frames Math_sin l s) = drag s /\
  tps_control (frames Math_sin l s) = tps_control s /\
  focus (store (frames Math_sin l s)) = focus (store s) /\
  List.length (cards (store (frames Math_sin l s)))
    = List.length (cards (store s)) /\
  forall k, k <> focus (store s) ->
    nth_error (cards (store (frames Math_sin l s))) k
      = nth_error (cards (store s)) k.
Proof.
  revert s. induction l as [|state l IH]; intro s; [simpl; auto 6|].
  simpl. destruct (IH (after (useFrame Math_sin state s)))
    as (H1 & H2 & H3 & H4 & H5 & H6).
  destruct (useFrame_keeps Math_sin state s) as (K1 & K2 & K3).
  destruct (useFrame_cards Math_sin state s) as (C1 & C2).
  pose proof (useFrame_focus Math_sin state s) as F.
  rewrite H1, H2, H3, H4, H5, K1, K2, K3, C1, F.
  repeat split. intros k Hk. rewrite H6 by (rewrite F; exact Hk).
  apply C2. exact Hk.
Qed.

Lemma useFrame_tick (Math_sin : Q -> decimal) (state : RootState) (s : Scene) :
  tick (clock (after (useFrame Math_sin state s)))
    = tick (frameClock (getElapsedTime state) s) /\
  lastTick (clock (after (useFrame Math_sin state s)))
    = lastTick (frameClock (getElapsedTime state) s).
Proof.
  unfold useFrame.
  destruct (tickGate _); [|simpl; auto].
  destruct (paused s); [simpl; auto|]. simpl.
  destruct (flipTrigger _ _ _) as [[|]|e]; simpl; auto.
  destruct (flip (focus (store s)) (store s)); simpl; auto.
Qed.

(** X15. The tick counter: a frame that comes more than [tps] seconds after
    [lastTick] counts one tick, moves [lastTick] to its own time and, for a
    positive [tps], is stopped by the gate; any other frame leaves the
    counter and [lastTick] alone. *)
Theorem frame_counts_a_tick_every_tps_seconds
    (Math_sin : Q -> decimal) (state : RootState) (s : Scene) :
  let t := getElapsedTime state in
  let o := useFrame Math_sin state s in
  (tps_control s < t - lastTick (clock s) ->
   tick (clock (after o)) = S (tick (clock s)) /\
   lastTick (clock (after o)) = t /\
   (0 < tps_control s -> calls o = [] /\ flips o = [] /\ thrown o = None)) /\
  (t - lastTick (clock s) <= tps_control s ->
   tick (clock (after o)) = tick (clock s) /\
   lastTick (clock (after o)) = lastTick (clock s)).
Proof.
  intros t o. destruct (useFrame_tick Math_sin state s) as [T L].
  fold t o in T, L. split; intro H.
  - assert (Hc : frameClock t s =
                 mkClock (S (tick (clock s))) t (tps_control s) t
                         (elapsed (clock s)) (animOffset (clock s))).
    { unfold frameClock. cbn [lastTick tps tick elapsed prevElapsed animOffset].
      apply Qgtb_true in H. rewrite H. reflexivity. }
    rewrite T, L, Hc. split; [reflexivity|]. split; [reflexivity|].
    intro Hpos.
    assert (Hg : tickGate (frameClock t s) = false).
    { rewrite Hc. unfold tickGate. cbn [tps elapsed lastTick].
      destruct (Qeq_bool (tps_control s) 0); [reflexivity|].
      apply Qgeb_false.
      assert (0 < 1 / tps_control s).
      { unfold Qdiv. rewrite Qmult_1_l. apply Qinv_lt_0_compat. exact Hpos. }
      lra. }
    unfold o. rewrite (useFrame_gated Math_sin state s Hg). simpl. auto.
  - assert (Hc : frameClock t s =
                 mkClock (tick (clock s)) (lastTick (clock s)) (tps_control s)
                         t (elapsed (clock s)) (animOffset (clock s))).
    { unfold frameClock. cbn [lastTick tps tick elapsed prevElapsed animOffset].
      apply Qgtb_false in H. rewrite H. reflexivity. }
    rewrite T, L, Hc. auto.
Qed.

Lemma useFrame_animOffset (Math_sin : Q -> decimal) (state : RootState)
    (s : Scene) :
  let c' := clock (after (useFrame Math_sin state s)) in
  elapsed c' = getElapsedTime state /\
  (elapsed (clock s) <= getElapsedTime state ->
   animOffset (clock s) <= animOffset c') /\
  (paused s = false -> animOffset c' = animOffset (clock s)).
Proof.
  intro c'.
  destruct (useFrame_clock_after Math_sin state s) as (A1 & A2 & A3).
  fold c' in A1, A2, A3. rewrite A3.
  split; [exact A1|]. split.
  - intro Ht. destruct (tickGate _ && paused s); lra.
  - intro Hp. rewrite Hp, andb_false_r. reflexivity.
Qed.

(** X16. Over any run of frames whose times do not go back [animOffset]
    never decreases, and over any run of frames with the focused card
    neither hovered nor dragged it stays what it was. *)
Theorem animOffset_over_a_run
    (Math_sin : Q -> decimal) (l : list RootState) (s : Scene) :
  (times_ordered (elapsed (clock s)) l ->
   animOffset (clock s) <= animOffset (clock (frames Math_sin l s))) /\
  (paused s = false ->
   animOffset (clock (frames Math_sin l s)) = animOffset (clock s)).
Proof.
  revert s. induction l as [|state l IH]; intro s.
  - simpl. split; intros; [lra|reflexivity].
  - simpl.
    destruct (useFrame_animOffset Math_sin state s) as (E & A & B).
    destruct (IH (after (useFrame Math_sin state s))) as (A' & B').
    split.
    + intros [Ht Hl]. rewrite E in A'. specialize (A Ht). specialize (A' Hl).
      lra.
    + intro Hp. rewrite B' by (rewrite useFrame_paused_after; exact Hp).
      apply B. exact Hp.
Qed.

Lemma animOffset_over_a_run_witness :
  let l := [frameAt 1; frameAt 2; frameAt 2] in
  animOffset (clock hoveringFocus)
    <= animOffset (clock (frames sin_ref l hoveringFocus)) /\
  animOffset (clock (frames sin_ref l (initialScene 4)))
    = animOffset (clock (initialScene 4)).
Proof.
  split.
  - apply (animOffset_over_a_run sin_ref
             [frameAt 1; frameAt 2; frameAt 2] hoveringFocus).
    simpl. repeat split; vm_compute; discriminate.
  - apply (animOffset_over_a_run sin_ref
             [frameAt 1; frameAt 2; frameAt 2] (initialScene 4)).
    reflexivity.
Defined.

(** ** The springs a frame starts *)

Lemma start_filter (n : nat) (p : nat -> bool) (g : nat -> SpringProps)
    (fn : nat -> option SpringProps) :
  (forall i, fn i = if p i then Some (g i) else None) ->
  start n fn = map (fun i => (i, g i)) (filter p (seq 0 n)).
Proof.
  intro Hfn. unfold start. generalize (seq 0 n) as l.
  induction l as [|a l IH]; [reflexivity|].
  simpl. rewrite IH, Hfn. destruct (p a); reflexivity.
Qed.

Lemma start_map (n : nat) (g : nat -> SpringProps)
    (fn : nat -> option SpringProps) :
  (forall i, fn i = Some (g i)) ->
  start n fn = map (fun i => (i, g i)) (seq 0 n).
Proof.
  intro Hfn. rewrite (start_filter n (fun _ => true) g fn).
  - f_equal. induction (seq 0 n) as [|a l IH]; simpl; congruence.
  - intro i. apply Hfn.
Qed.

(** X17. On a frame that passes the gate with no drag in progress and does not
    throw, every card out of focus is given its layout target once by the
    last springs call; before it the focused card is given the idle-cycle
    target when the animator plays, and every card is given a target (the
    focused one the hover tilt at scale 0.85) when the focused card is
    hovered. *)
Theorem frame_without_drag_targets_every_card
    (Math_sin : Q -> decimal) (state : RootState) (s : Scene) :
  let c := frameClock (getElapsedTime state) s in
  let o := useFrame Math_sin state s in
  let n := List.length (cards (store s)) in
  let f := focus (store s) in
  let m := frameMouse state s in
  let layout := fun i => cardsLayout i f (cards (store s)) (hover s) m in
  let others :=
    map (fun i => (i, layout i))
        (filter (fun i => negb (Nat.eqb i f)) (seq 0 n)) in
  tickGate c = true -> DragRef.dragging (drag s) = false ->
  (f < n)%nat -> thrown o = None ->
  (paused s = false ->
   calls o =
     [[(f, idleTarget (valueOf (cycleAt Math_sin c))
                      (valueOf (Math_sin (elapsed c * 2))))]; others]) /\
  (hovered (hover s) f = true ->
   calls o =
     [map (fun i => (i, if Nat.eqb i f then hoverFocusTarget m else layout i))
          (seq 0 n); others]) /\
  (paused s = true -> hovered (hover s) f = false -> calls o = [others]).
Proof.
  intros c o n f m layout others Hg Hd Hf Ht.
  assert (Ho : start n (layoutOthers f (cards (store s)) (hover s) m (drag s))
               = others).
  { apply start_filter. intro i. unfold layoutOthers. rewrite Hd.
    destruct (Nat.eqb i f); reflexivity. }
  assert (Hi : forall cy w,
             start n (idleCycle f cy w) = [(f, idleTarget cy w)]).
  { intros cy w. apply start_single; [|exact Hf].
    intro i. unfold idleCycle. destruct (Nat.eqb i f); reflexivity. }
  assert (Hh : start n (hoverFocus f (cards (store s)) (hover s) m) =
               map (fun i => (i, if Nat.eqb i f then hoverFocusTarget m
                                 else layout i)) (seq 0 n)).
  { apply start_map. intro i. unfold hoverFocus.
    destruct (Nat.eqb i f); reflexivity. }
  unfold o, useFrame in *. fold c n f m in Ht |- *.
  rewrite Hg, Hd in *. cbn [negb] in *. rewrite Ho in *.
  split; [|split].
  - intro Hp. rewrite Hp in *.
    assert (Hhov : hovered (hover s) f = false).
    { unfold paused in Hp. apply orb_false_iff in Hp. tauto. }
    rewrite Hhov in *.
    destruct (flipTrigger _ _ _) as [[|]|e]; [|rewrite Hi; reflexivity|
                                              discriminate].
    destruct (flip f (store s)); [rewrite Hi; reflexivity|discriminate].
  - intro Hhov.
    assert (Hp : paused s = true).
    { unfold paused. fold f. rewrite Hhov. apply orb_true_r. }
    rewrite Hp, Hhov, Hh. reflexivity.
  - intros Hp Hhov. rewrite Hp, Hhov. reflexivity.
Qed.

Lemma frame_without_drag_witness :
  let s := initialScene 4 in
  let c := frameClock 1 s in
  calls (useFrame sin_ref (frameAt 1) s) =
    [[(0%nat, idleTarget (valueOf (cycleAt sin_ref c))
                         (valueOf (sin_ref (elapsed c * 2))))];
     map (fun i => (i, cardsLayout i 0 (cards (store s)) (hover s)
                                   (frameMouse (frameAt 1) s)))
         (filter (fun i => negb (Nat.eqb i 0)) (seq 0 4))].
Proof.
  assert (Hg : tickGate (frameClock 1 (initialScene 4)) = true)
    by (vm_compute; reflexivity).
  assert (Hf : (focus (store (initialScene 4))
                < List.length (cards (store (initialScene 4))))%nat)
    by (vm_compute; lia).
  assert (Ht : thrown (useFrame sin_ref (frameAt 1) (initialScene 4)) = None)
    by (vm_compute; reflexivity).
  apply (frame_without_drag_targets_every_card sin_ref (frameAt 1)
           (initialScene 4) Hg eq_refl Hf Ht).
  reflexivity.
Defined.

(** ** Runs of events *)

Lemma splice1_length (i : nat) (v : slot) (n : list slot) :
  (i < List.length n)%nat -> List.length (splice1 i v n) = List.length n.
Proof.
  revert i. induction n as [|a n IH]; intros i H; simpl in H; [lia|].
  destruct i as [|i]; [reflexivity|].
  rewrite splice1_cons. simpl. f_equal. apply IH. lia.
Qed.

(** X18. Pointer-over and then pointer-out on the same card leaves no card
    hovered and the array as long as it was; pointer-out on another card
    leaves the hovered card hovered. *)
Theorem pointer_over_then_out (i j : nat) (s : Scene) :
  (i < List.length (hover s))%nat ->
  (forall k, hovered (hover (onPointerOut i (onPointerOver i s))) k = false) /\
  List.length (hover (onPointerOut i (onPointerOver i s)))
    = List.length (hover s) /\
  (j <> i -> hovered (hover (onPointerOut j (onPointerOver i s))) i = true).
Proof.
  intro H. split; [|split].
  - intro k. rewrite onPointerOut_hovered, onPointerOver_hovered.
    rewrite Nat.min_l by lia. destruct (Nat.eqb k i); reflexivity.
  - unfold onPointerOut, onPointerOver, with_hover. cbn [hover].
    unfold spread, map_false.
    rewrite splice1_length; rewrite !length_map.
    + rewrite splice1_length; rewrite !length_map; [reflexivity|exact H].
    + rewrite splice1_length; rewrite !length_map; exact H.
  - intro Hj. rewrite onPointerOut_hovered, onPointerOver_hovered.
    rewrite Nat.min_l by lia. rewrite Nat.eqb_refl.
    apply Nat.eqb_neq in Hj. rewrite Nat.eqb_sym, Hj. reflexivity.
Qed.

Lemma pointer_over_then_out_witness :
  (forall k, hovered (hover (onPointerOut 2 (onPointerOver 2 (initialScene 4))))
                     k = false) /\
  List.length (hover (onPointerOut 2 (onPointerOver 2 (initialScene 4))))
    = List.length (hover (initialScene 4)).
Proof.
  destruct (pointer_over_then_out 2 0 (initialScene 4)) as (A & B & _);
    [simpl; lia|].
  exact (conj A B).
Defined.

Lemma onTimer_hover (s : Scene) : hover (after (onTimer s)) = hover s.
Proof.
  unfold onTimer. destruct (timers s) as [|t r]; [reflexivity|].
  destruct (runTimer t (store s)); reflexivity.
Qed.

Lemma step_hover_count (Math_sin : Q -> decimal) (e : Event) (s : Scene) :
  (hovered_count (hover s) <= 1)%nat ->
  (hovered_count (hover (after (step Math_sin e s))) <= 1)%nat.
Proof.
  intro H. destruct e; cbn [step after returns];
    try (unfold onDragStart, onDrag, onDragEnd, onMove; simpl; exact H).
  - pose proof (onClick_hover_count i s). lia.
  - unfold onPointerOver, with_hover. cbn [hover].
    pose proof (hovered_count_splice1 (Flag true)
                  (spread (map_false (hover s))) i) as Hc.
    rewrite hovered_count_spread, hovered_count_map_false in Hc.
    change (hovered_count [Flag true]) with 1%nat in Hc. exact Hc.
  - unfold onPointerOut, with_hover. cbn [hover].
    pose proof (hovered_count_splice1 (Flag false) (spread (hover s)) i) as Hc.
    rewrite hovered_count_spread in Hc.
    change (hovered_count [Flag false]) with 0%nat in Hc. lia.
  - unfold onCardCount, with_hover. cbn [hover].
    rewrite hovered_count_Array. lia.
  - rewrite onTimer_hover. exact H.
  - destruct (useFrame_keeps Math_sin state s) as (Hh & _). rewrite Hh.
    exact H.
Qed.

(** X19. Whatever events come in whatever order (gestures, clicks, pointer
    events, changes of the card count, timers, frames), a scene started with
    any number of cards never has more than one card hovered. *)
Theorem at_most_one_hovered_in_every_run
    (Math_sin : Q -> decimal) (es : list Event) (cardCount : nat) :
  at_most_one_hovered (hover (run Math_sin es (initialScene cardCount))).
Proof.
  unfold at_most_one_hovered.
  assert (H0 : (hovered_count (hover (initialScene cardCount)) <= 1)%nat).
  { unfold initialScene. cbn [hover]. rewrite hovered_count_Array. lia. }
  revert H0. generalize (initialScene cardCount) as s.
  induction es as [|e es IH]; intros s H; [exact H|].
  simpl. apply IH. apply step_hover_count. exact H.
Qed.

Lemma flip_ok_facts (i : nat) (st : Store) (r : Store * list Timer) :
  flip i st = Ok r ->
  snd r = [LiftReset i 100] /\ (i < List.length (cards st))%nat /\
  List.length (cards (fst r)) = List.length (cards st) /\
  focus (fst r) = focus st.
Proof.
  intro H.
  assert (Hi : (i < List.length (cards st))%nat).
  { apply assign_ok_iff with (f := set_lift 4.5).
    unfold flip, bump in H.
    destruct (assign (set_lift 4.5) i (cards st)); [eauto|discriminate]. }
  destruct (flip_in_range_or_throws i st) as [F _].
  destruct (F Hi) as (r' & E & T & Fo & L & _).
  rewrite H in E. inversion E; subst r'. auto.
Qed.

Lemma timers_in_range_app (s : Scene) (r : Store * list Timer) (i : nat) :
  timers_in_range s ->
  snd r = [LiftReset i 100] -> (i < List.length (cards (store s)))%nat ->
  List.length (cards (fst r)) = List.length (cards (store s)) ->
  forall s', store s' = fst r -> timers s' = timers s ++ snd r ->
  timers_in_range s'.
Proof.
  intros H T Hi L s' Hs Ht. unfold timers_in_range in *.
  rewrite Hs, Ht, L, T. apply Forall_app. split; [exact H|].
  constructor; [exact Hi|constructor].
Qed.

Lemma timers_in_range_same (s s' : Scene) :
  timers_in_range s ->
  List.length (cards (store s')) = List.length (cards (store s)) ->
  timers s' = timers s -> timers_in_range s'.
Proof.
  unfold timers_in_range. intros H L T. rewrite L, T. exact H.
Qed.

Lemma step_timers_in_range (Math_sin : Q -> decimal) (e : Event) (s : Scene) :
  keeps_cards e = true -> timers_in_range s ->
  timers_in_range (after (step Math_sin e s)).
Proof.
  intros Hk H. destruct e; try discriminate; cbn [step after returns];
    try (apply (timers_in_range_same s); [exact H|reflexivity|reflexivity]).
  - (* drag-end *)
    apply (timers_in_range_same s); [exact H| |reflexivity].
    unfold onDragEnd. cbn [store with_drag with_store].
    destruct (truthy_index _ && _); [|reflexivity].
    destruct (DragRef.i (drag s)); reflexivity.
  - (* click *)
    unfold onClick. destruct (DragRef.dragged (drag s)).
    + apply (timers_in_range_same s); [exact H|reflexivity|reflexivity].
    + destruct (Nat.eqb (focus (store s)) i).
      * destruct (flip (focus (store s)) (store s)) as [r|] eqn:E;
          cbn [after]; [|exact H].
        destruct (flip_ok_facts _ _ _ E) as (T & Hi & L & _).
        apply (timers_in_range_app s r (focus (store s)) H T Hi L);
          reflexivity.
      * apply (timers_in_range_same s); [exact H|reflexivity|reflexivity].
  - (* timer *)
    unfold onTimer. unfold timers_in_range in *.
    destruct (timers s) as [|t rest] eqn:Et; [cbn [after returns]|].
    + rewrite Et. constructor.
    + inversion H as [|t' rest' Ht Hrest]; subst.
      destruct t as [i d]. cbn [runTimer].
      destruct (assign (set_lift 0) i (cards (store s))) as [cs|] eqn:E;
        cbn [bind after returns store timers with_store cards].
      * rewrite (assign_length _ _ _ _ E). exact Hrest.
      * exact Hrest.
  - (* frame *)
    unfold useFrame.
    destruct (tickGate _);
      [|apply (timers_in_range_same s); [exact H|reflexivity|reflexivity]].
    destruct (paused s);
      [apply (timers_in_range_same s); [exact H|reflexivity|reflexivity]|].
    cbn [negb].
    destruct (flipTrigger _ _ _) as [[|]|ex];
      try (apply (timers_in_range_same s);
           [exact H|reflexivity|reflexivity]).
    destruct (flip (focus (store s)) (store s)) as [r|] eqn:E;
      [|apply (timers_in_range_same s); [exact H|reflexivity|reflexivity]].
    destruct (flip_ok_facts _ _ _ E) as (T & Hi & L & _).
    apply (timers_in_range_app s r (focus (store s)) H T Hi L); reflexivity.
Qed.

(** X20. As long as the card collection is not replaced, every pending lift
    reset points at an existing card after any run of events, and the next
    timer to fire does not throw. *)
Theorem timers_never_throw_while_cards_stay
    (Math_sin : Q -> decimal) (es : list Event) (s : Scene) :
  timers_in_range s -> forallb keeps_cards es = true ->
  timers_in_range (run Math_sin es s) /\
  thrown (onTimer (run Math_sin es s)) = None.
Proof.
  intros H Hk.
  assert (Hr : timers_in_range (run Math_sin es s)).
  { revert s H. induction es as [|e es IH]; intros s H; [exact H|].
    simpl in Hk. apply andb_true_iff in Hk. destruct Hk as [Hk1 Hk2].
    simpl. apply (IH Hk2). apply step_timers_in_range; assumption. }
  split; [exact Hr|].
  unfold onTimer. unfold timers_in_range in Hr.
  destruct (timers (run Math_sin es s)) as [|t rest]; [reflexivity|].
  inversion Hr as [|t' rest' Ht Hrest]; subst. destruct t as [i d].
  cbn [runTimer]. cbn [timer_index] in Ht.
  destruct (assign_in_range (set_lift 0) _ i Ht) as (l' & E & _).
  rewrite E. reflexivity.
Qed.

Lemma timers_never_throw_witness :
  let s' := run sin_ref [Click 0; PointerOver 2; Frame (frameAt 1); TimerFires;
                         Click 0] (initialScene 4) in
  timers_in_range s' /\ thrown (onTimer s') = None.
Proof.
  apply (timers_never_throw_while_cards_stay sin_ref
           [Click 0; PointerOver 2; Frame (frameAt 1); TimerFires; Click 0]
           (initialScene 4)).
  - unfold timers_in_range. simpl. constructor.
  - reflexivity.
Defined.

Lemma run_app (Math_sin : Q -> decimal) (a b : list Event) (s : Scene) :
  run Math_sin (a ++ b) s = run Math_sin b (run Math_sin a s).
Proof.
  revert s. induction a as [|e a IH]; intro s; [reflexivity|].
  simpl. apply IH.
Qed.

Lemma run_drags (Math_sin : Q -> decimal) (moves : list Event) :
  forallb is_drag moves = true ->
  forall s,
    let s1 := run Math_sin moves s in
    DragRef.i (drag s1) = DragRef.i (drag s) /\
    DragRef.dragging (drag s1) = DragRef.dragging (drag s) /\
    DragRef.dragged (drag s1) = DragRef.dragged (drag s) /\
    store s1 = store s /\ mouse s1 = mouse s /\ hover s1 = hover s /\
    timers s1 = timers s /\ clock s1 = clock s.
Proof.
  induction moves as [|e moves IH]; intros H s; [simpl; auto 8|].
  simpl in H. apply andb_true_iff in H. destruct H as [He H].
  destruct e; try discriminate. simpl.
  destruct (IH H (onDrag i point velocity direction s))
    as (A & B & C & D & E & F & G & K).
  simpl in A, B, C, D, E, F, G, K. auto 8.
Qed.

(** X21. A whole drag: drag-start on card [i], any drag-moves (whatever card
    they report: the target is not swapped), drag-end.  The drag state is
    back to not dragging with no target and [dragged] set, the cards and
    hover flags are untouched, and the focus is on [i] exactly when [i] is
    not 0 and the pointer is above the threshold. *)
Theorem whole_drag_moves_focus
    (Math_sin : Q -> decimal) (s : Scene) (i j : nat) (moves : list Event) :
  forallb is_drag moves = true ->
  let mid := run Math_sin (DragStart i :: moves) s in
  let s' := run Math_sin (DragStart i :: moves ++ [DragEnd j]) s in
  DragRef.i (drag mid) = Some i /\ DragRef.dragging (drag mid) = true /\
  DragRef.i (drag s') = None /\ DragRef.dragging (drag s') = false /\
  DragRef.dragged (drag s') = true /\
  cards (store s') = cards (store s) /\ hover s' = hover s /\
  focus (store s') =
    if negb (Nat.eqb i 0) && Qgtb (snd (position (mouse s))) (-0.3)
    then i else focus (store s).
Proof.
  intros H mid s'.
  assert (Hs' : s' = onDragEnd j mid).
  { unfold s', mid. change (DragStart i :: moves ++ [DragEnd j])
      with ((DragStart i :: moves) ++ [DragEnd j]).
    rewrite run_app. reflexivity. }
  assert (Hmid : DragRef.i (drag mid) = Some i /\
                 DragRef.dragging (drag mid) = true /\
                 DragRef.dragged (drag mid) = true /\
                 store mid = store s /\ mouse mid = mouse s /\
                 hover mid = hover s).
  { destruct (run_drags Math_sin moves H (onDragStart i s))
      as (A & B & C & D & E & F & _).
    unfold mid. cbn [run step after returns]. auto 8. }
  clearbody mid s'. subst s'.
  destruct Hmid as (A & B & C & D & E & F).
  split; [exact A|]. split; [exact B|].
  unfold onDragEnd.
  cbn [drag with_drag with_store store hover DragRef.i DragRef.dragging
       DragRef.dragged].
  rewrite A, C, D, E, F.
  split; [reflexivity|]. split; [reflexivity|]. split; [reflexivity|].
  destruct i as [|i]; cbn [truthy_index Nat.eqb negb andb].
  - auto.
  - destruct (Qgtb (snd (position (mouse s))) (-0.3)); auto.
Qed.

Lemma whole_drag_witness :
  let s' := run sin_ref
              (DragStart 2 :: [Drag 1 (0, 0) (1, 1) (1, 1)] ++ [DragEnd 2])
              (initialScene 4) in
  DragRef.dragging (drag s') = false /\ focus (store s') = 2%nat.
Proof.
  destruct (whole_drag_moves_focus sin_ref (initialScene 4) 2 2
              [Drag 1 (0, 0) (1, 1) (1, 1)] eq_refl)
    as (_ & _ & _ & A & _ & _ & _ & B).
  split; [exact A|]. rewrite B. reflexivity.
Defined.

(** X22. Two clicks on a card out of focus (no drag pending): the first moves
    the focus to it and flips nothing, the second flips it, lifts it and
    sets one timer; no click throws, the other cards stay as they were and
    no card is left hovered. *)
Theorem two_clicks_focus_then_flip (i : nat) (s : Scene) :
  DragRef.dragged (drag s) = false ->
  (i < List.length (cards (store s)))%nat -> i <> focus (store s) ->
  let o1 := onClick i s in
  let o2 := onClick i (after o1) in
  thrown o1 = None /\ flips o1 = [] /\
  focus (store (after o1)) = i /\ cards (store (after o1)) = cards (store s) /\
  thrown o2 = None /\ flips o2 = [i] /\ focus (store (after o2)) = i /\
  timers (after o2) = timers s ++ [LiftReset i 100] /\
  (forall k, nth_error (cards (store (after o2))) k =
     if Nat.eqb k i
     then option_map (fun c => Card.mk (negb (Card.flip c)) (Some 4.5))
                     (nth_error (cards (store s)) k)
     else nth_error (cards (store s)) k) /\
  (forall k, hovered (hover (after o2)) k = false).
Proof.
  intros Hd Hi Hne o1 o2.
  assert (E1 : o1 = returns (with_hover (with_store s (setFocus i (store s)))
                                        (map_false (hover s)))).
  { unfold o1, onClick. rewrite Hd.
    destruct (Nat.eqb_spec (focus (store s)) i); [congruence|reflexivity]. }
  destruct (flip_in_range_or_throws i (setFocus i (store s))) as [F _].
  destruct (F Hi) as (r & Er & T & Fo & L & N).
  assert (E2 : o2 = mkOutcome
                      (with_hover (with_store_timers (after o1) r)
                                  (map_false (hover (after o1))))
                      [] [i] None).
  { unfold o2, onClick. rewrite E1.
    cbn [after returns drag with_hover with_store store focus setFocus].
    rewrite Hd, Nat.eqb_refl.
    change (mkStore (cards (store s)) i) with (setFocus i (store s)).
    rewrite Er. reflexivity. }
  rewrite E2, E1. cbn [after returns thrown flips store timers hover
                       with_hover with_store with_store_timers].
  rewrite T, Fo.
  repeat split; try reflexivity.
  - exact N.
  - intro k. apply hovered_map_false.
Qed.

Lemma two_clicks_witness :
  let o1 := onClick 2 (initialScene 4) in
  let o2 := onClick 2 (after o1) in
  thrown o2 = None /\ flips o2 = [2%nat] /\ focus (store (after o2)) = 2%nat.
Proof.
  destruct (two_clicks_focus_then_flip 2 (initialScene 4))
    as (_ & _ & _ & _ & A & B & C & _);
    [reflexivity | simpl; lia | simpl; lia |].
  exact (conj A (conj B C)).
Defined.

(** X23. The pose [Card] gives a card through a flip: right after [flip(i)] the
    card is turned to its other face and lifted by 4.5; when the timer has
    fired it is still on that face at depth 0, the same pose as with no
    lift at all; the two faces are y-rotations by 0 and by pi. *)
Theorem card_pose_through_a_flip (i : nat) (st : Store) (c : CardType) :
  nth_error (cards st) i = Some c ->
  exists r s2,
    flip i st = Ok r /\ runTimer (LiftReset i 100) (fst r) = Ok s2 /\
    cardProps st i = Some (Card_effect (Card.flip c) (Card.lift c)) /\
    cardProps (fst r) i = Some (Card_effect (negb (Card.flip c)) (Some 4.5)) /\
    cardProps s2 i = Some (Card_effect (negb (Card.flip c)) (Some 0)) /\
    Card_effect (negb (Card.flip c)) (Some 0)
      = Card_effect (negb (Card.flip c)) None /\
    sp_position (Card_effect (negb (Card.flip c)) (Some 4.5))
      = Some (0, 0, 4.5) /\
    sp_rotation (Card_effect true None) = Some (mkEuler (0, 0, 0) None) /\
    sp_rotation (Card_effect false None)
      = Some (mkEuler (0, Math_PI, 0) None).
Proof.
  intro Hc.
  assert (Hi : (i < List.length (cards st))%nat)
    by (apply nth_error_Some; congruence).
  destruct (flip_in_range_or_throws i st) as [F _].
  destruct (F Hi) as (r & Er & _ & _ & L & N).
  destruct (assign_in_range (set_lift 0) (cards (fst r)) i) as (l2 & E2 & _);
    [rewrite L; exact Hi|].
  exists r, (mkStore l2 (focus (fst r))).
  split; [exact Er|]. split; [unfold runTimer; rewrite E2; reflexivity|].
  unfold cardProps. cbn [cards].
  rewrite (assign_nth_error _ _ _ _ E2 i), N, Nat.eqb_refl, Hc.
  repeat split.
Qed.

Lemma card_pose_witness :
  exists r s2,
    flip 3 fourCards = Ok r /\ runTimer (LiftReset 3 100) (fst r) = Ok s2 /\
    cardProps (fst r) 3 = Some (Card_effect true (Some 4.5)) /\
    cardProps s2 3 = Some (Card_effect true (Some 0)).
Proof.
  destruct (card_pose_through_a_flip 3 fourCards (Card.mk false None) eq_refl)
    as (r & s2 & A & B & _ & C & D & _).
  exists r, s2. exact (conj A (conj B (conj C D))).
Defined.

(** X7. The flip trigger also fires far from the designated point: on a
    positive cycle below 10^-6 whose mantissa is printed [d.91...], when the
    second fractional digit of [prevCycle] is 0. *)
Theorem flipTrigger_fires_on_mantissa_digits
    (e : Q) (d1 : nat) (t : list nat) (ex : Z) (p : decimal) :
  forallb digit_ok (d1 :: 9 :: 1 :: t)%nat = true -> d1 <> 0%nat ->
  (ex <= -6)%Z -> 5 < e -> nthDigit 1 p = Ok (Num 0) ->
  flipTrigger e (mkDec false (d1 :: 9 :: 1 :: t)%nat ex) p = Ok true /\
  valueOf (mkDec false (d1 :: 9 :: 1 :: t)%nat ex) < 1 # 100000.
Proof.
  intros Hall Hd Hex He Hp.
  set (ds := (d1 :: 9 :: 1 :: t)%nat) in *.
  destruct (frac_bounds ds Hall) as [F0 F1].
  assert (Hf : 1 # 10 <= frac ds).
  { unfold ds. pose proof (frac_cons d1 (9 :: 1 :: t)%nat) as Ec.
    assert (Ht : forallb digit_ok (9 :: 1 :: t)%nat = true)
      by (unfold ds in Hall; simpl in Hall;
          apply andb_true_iff in Hall; tauto).
    destruct (frac_bounds _ Ht) as [T0 _].
    assert (H1 : inject_Z 1 <= inject_Z (Z.of_nat d1))
      by (rewrite <- Zle_Qle; lia).
    change (inject_Z 1) with 1 in H1. lra. }
  pose proof (pow10_pos ex) as Pp.
  assert (Pl : pow10 ex <= 1 # 1000000).
  { destruct ex as [|q|q]; try lia. unfold pow10.
    apply Qle_shift_inv_r.
    - change 0 with (inject_Z 0). rewrite <- Zlt_Qlt.
      apply Z.pow_pos_nonneg; lia.
    - assert (H6 : inject_Z (10 ^ 6) <= inject_Z (10 ^ Z.pos q))
        by (rewrite <- Zle_Qle; apply Z.pow_le_mono_r; lia).
      change (inject_Z (10 ^ 6)) with 1000000 in H6. lra. }
  split.
  - apply flipTrigger_true_iff.
    split; [exact He|]. split; [unfold valueOf; cbn [neg digits pt]; nra|].
    split; [|split; [|exact Hp]].
    + apply (nthDigit_reads_mantissa_below_1e_6 0 false d1 9 (1 :: t)%nat ex 9);
        [exact Hall | exact Hex | reflexivity].
    + apply (nthDigit_reads_mantissa_below_1e_6 1 false d1 9 (1 :: t)%nat ex 1);
        [exact Hall | exact Hex | reflexivity].
  - unfold valueOf. cbn [neg digits pt]. nra.
Qed.

Lemma flipTrigger_fires_on_mantissa_witness :
  flipTrigger 19 (mkDec false [1; 9; 1]%nat (-6)) (mkDec true [5]%nat (-2))
    = Ok true.
Proof.
  apply (flipTrigger_fires_on_mantissa_digits 19 1 [] (-6)
           (mkDec true [5]%nat (-2)));
    [reflexivity | discriminate | lia | reflexivity | reflexivity].
Defined.
